(** * The agent dispatch and vault aggregation layer of [backend/server.py]

    A shallow embedding of the FastAPI handlers of [server.py]:
    the agent registry ([_get_agent_cache], [_get_or_create_agent]), the
    chat, search and capabilities handlers ([chat_with_agent],
    [search_and_summarize], [get_agent_capabilities]), the vault handlers
    ([get_pendle_vaults], [get_vault_details]), the status checks and
    [lifespan].

    Python objects decoded from JSON are the values of [Py.value]; a Python
    exception is a value of [Py.exn], whether its class derives from
    [Exception] or from [BaseException] only; a computation that may raise
    returns a [Py.outcome].  The application state ([request.app.state]) and the
    agent objects it owns are threaded explicitly through the handlers.
    The agent classes of [ai_agents.agents] are collaborators whose code is
    not part of [server.py]: they enter through the interface [AgentImpl]. *)

From Stdlib Require Import ZArith String Ascii List Bool Lia.
From Stdlib Require Import Floats.SpecFloat DecimalString.
From stdpp Require Import gmap strings list.

Set Warnings "-register-all".
Local Open Scope Z_scope.

(** ** Python values, exceptions and the builtins the handlers call *)

Module Py.

(** A Python [float] is an IEEE 754 binary64 number. *)
Definition float : Type := spec_float.

Definition prec : Z := 53.
Definition emax : Z := 1024.

Definition float_zero : float := S754_zero false.
Definition float_one : float := binary_normalize prec emax 1 0 false.

(** The objects [json] decoding produces (and the objects an agent may put
    in its metadata).  A [dict] keeps insertion order; lookup takes the
    first binding of a key.  Strings hold code points below 256. *)
Inductive value : Type :=
| VNone
| VBool (b : bool)
| VInt (n : Z)
| VFloat (f : float)
| VStr (s : string)
| VList (l : list value)
| VDict (d : list (string * value)).

(** Exception classes, as far as the [except] clauses of the handlers tell
    them apart.  [ValidationError] (pydantic) and [JSONDecodeError] derive
    from [ValueError]; the [httpx] classes derive from [httpx.HTTPError];
    [OtherException] is any further class deriving from [Exception] and
    from none of the classes an [except] clause names.  The last four
    derive from [BaseException] and not from [Exception]
    ([asyncio.CancelledError], which an [await] raises when the task of
    the request is cancelled, [KeyboardInterrupt], [SystemExit], and any
    further such class): an [except Exception] clause lets them pass. *)
Inductive httpx_class : Type :=
| HTTPStatusError
| TimeoutException
| ConnectError
| OtherRequestError.

Inductive exc_class : Type :=
| ValueError
| ValidationError
| JSONDecodeError
| TypeError
| KeyError
| AttributeError
| OverflowError
| HttpxError (k : httpx_class)
| OtherException (name : string)
| CancelledError
| KeyboardInterrupt
| SystemExit
| OtherBaseException (name : string).

(** [HTTPException] is FastAPI's; every other exception carries its class
    and the text [str(exc)] gives. *)
Inductive exn : Type :=
| HTTPException (status_code : Z) (detail : string)
| Exc (cls : exc_class) (msg : string).

Inductive outcome (A : Type) : Type :=
| Return (a : A)
| Raise (e : exn).

Arguments Return {A} a.
Arguments Raise {A} e.

Definition bind {A B : Type} (m : outcome A) (k : A -> outcome B) : outcome B :=
  match m with
  | Return a => k a
  | Raise e => Raise e
  end.

Definition is_HTTPException (e : exn) : bool :=
  match e with
  | HTTPException _ _ => true
  | Exc _ _ => false
  end.

(** [isinstance(exc, Exception)] *)
Definition is_Exception (e : exn) : bool :=
  match e with
  | HTTPException _ _ => true
  | Exc (CancelledError | KeyboardInterrupt | SystemExit | OtherBaseException _) _ => false
  | Exc _ _ => true
  end.

(** [isinstance(exc, httpx.HTTPError)] *)
Definition is_HTTPError (e : exn) : bool :=
  match e with
  | Exc (HttpxError _) _ => true
  | _ => false
  end.

(** [isinstance(exc, (ValueError, TypeError, KeyError))] *)
Definition is_ValueError_TypeError_KeyError (e : exn) : bool :=
  match e with
  | Exc ValueError _ | Exc ValidationError _ | Exc JSONDecodeError _
  | Exc TypeError _ | Exc KeyError _ => true
  | _ => false
  end.

Definition str_of_Z (n : Z) : string := NilZero.string_of_int (Z.to_int n).

(** [str(exc)]; for [HTTPException] the text is Starlette's
    ["{status_code}: {detail}"]. *)
Definition str_exn (e : exn) : string :=
  match e with
  | HTTPException status_code detail => str_of_Z status_code +:+ ": " +:+ detail
  | Exc _ msg => msg
  end.

Definition type_name (v : value) : string :=
  match v with
  | VNone => "NoneType"
  | VBool _ => "bool"
  | VInt _ => "int"
  | VFloat _ => "float"
  | VStr _ => "str"
  | VList _ => "list"
  | VDict _ => "dict"
  end.

(** Truth value of an object ([bool(v)], as [or] tests it). *)
Definition truthy (v : value) : bool :=
  match v with
  | VNone => false
  | VBool b => b
  | VInt n => negb (n =? 0)
  | VFloat (S754_zero _) => false
  | VFloat _ => true
  | VStr s => negb (String.eqb s "")
  | VList l => match l with [] => false | _ => true end
  | VDict d => match d with [] => false | _ => true end
  end.

(** [v or w] *)
Definition or_ (v w : value) : value := if truthy v then v else w.

Fixpoint dict_lookup (key : string) (d : list (string * value)) : option value :=
  match d with
  | [] => None
  | (k, v) :: d' => if String.eqb k key then Some v else dict_lookup key d'
  end.

(** [obj.get(key, default)]: only a [dict] has the method. *)
Definition get (obj : value) (key : string) (default : value) : outcome value :=
  match obj with
  | VDict d => Return (match dict_lookup key d with Some v => v | None => default end)
  | _ => Raise (Exc AttributeError
                  ("'" +:+ type_name obj +:+ "' object has no attribute 'get'"))
  end.

Fixpoint chars (s : string) : list value :=
  match s with
  | EmptyString => []
  | String c s' => VStr (String c EmptyString) :: chars s'
  end.

(** The elements a [for] loop visits. *)
Definition iter (v : value) : outcome (list value) :=
  match v with
  | VList l => Return l
  | VDict d => Return (map (fun kv => VStr (fst kv)) d)
  | VStr s => Return (chars s)
  | _ => Raise (Exc TypeError ("'" +:+ type_name v +:+ "' object is not iterable"))
  end.

(** *** Text of numbers: what [float(str)] and [int(str)] accept *)

Definition code (c : ascii) : Z := Z.of_N (N_of_ascii c).

(** The characters [float] and [int] strip from both ends of a string:
    the ASCII white space of [Py_ISSPACE] and, among the other code points
    below 256, the two Unicode spaces (NEL and the no-break space). *)
Definition is_space (c : ascii) : bool :=
  let n := code c in
  ((9 <=? n) && (n <=? 13)) || (n =? 32) || (n =? 133) || (n =? 160).

Definition is_digit (c : ascii) : bool :=
  let n := code c in (48 <=? n) && (n <=? 57).

Definition digit_value (c : ascii) : Z := code c - 48.

Fixpoint lstrip (s : list ascii) : list ascii :=
  match s with
  | c :: s' => if is_space c then lstrip s' else s
  | [] => []
  end.

Definition strip (s : list ascii) : list ascii :=
  rev (lstrip (rev (lstrip s))).

(** Underscores may only stand between two digits; they are dropped.
    [prev] is the character before [s]. *)
Fixpoint drop_underscores (prev : option ascii) (s : list ascii) : option (list ascii) :=
  let after_digit := match prev with Some p => is_digit p | None => false end in
  match s with
  | [] => if bool_decide (prev = Some "_"%char) then None else Some []
  | c :: s' =>
      if bool_decide (c = "_"%char) then
        if after_digit then drop_underscores (Some c) s' else None
      else if bool_decide (prev = Some "_"%char) && negb (is_digit c) then None
      else option_map (cons c) (drop_underscores (Some c) s')
  end.

(** The longest prefix of digits, and what follows it. *)
Fixpoint span_digits (s : list ascii) : list ascii * list ascii :=
  match s with
  | c :: s' =>
      if is_digit c then let '(ds, r) := span_digits s' in (c :: ds, r) else ([], s)
  | [] => ([], [])
  end.

Definition digits_value (ds : list ascii) : Z :=
  fold_left (fun acc c => 10 * acc + digit_value c) ds 0.

Definition take_sign (s : list ascii) : bool * list ascii :=
  match s with
  | c :: s' =>
      if bool_decide (c = "-"%char) then (true, s')
      else if bool_decide (c = "+"%char) then (false, s')
      else (false, s)
  | [] => (false, [])
  end.

Definition lower (c : ascii) : ascii :=
  let n := code c in
  if (65 <=? n) && (n <=? 90) then ascii_of_N (Z.to_N (n + 32)) else c.

Definition signed (neg : bool) (n : Z) : Z := if neg then - n else n.

(** The binary64 number nearest to [(-1)^neg * m * 10^e10] (ties to even;
    an overflow gives an infinity), for [m > 0].  A negative [e10] is a
    division: the quotient is taken with 64 bits to spare and the
    remainder is kept as one sticky bit below it, which the rounding of
    [binary_round] then sees. *)
Definition float_of_decimal (neg : bool) (m : Z) (e10 : Z) : float :=
  if m <=? 0 then S754_zero neg
  else if 0 <=? e10 then binary_round prec emax neg (Z.to_pos (m * 10 ^ e10)) 0
  else
    let den := 10 ^ (- e10) in
    let s := 64 + Z.log2_up den in
    let num := m * 2 ^ s in
    let sticky := if num mod den =? 0 then 0 else 1 in
    binary_round prec emax neg (Z.to_pos (2 * (num / den) + sticky)) (- s - 1).

(** An exponent part: [e] or [E], an optional sign, at least one digit. *)
Definition parse_exponent (s : list ascii) : option Z :=
  match s with
  | [] => Some 0
  | c :: s' =>
      if bool_decide (lower c = "e"%char) then
        let '(neg, s'') := take_sign s' in
        match span_digits s'' with
        | ((_ :: _) as ds, []) => Some (signed neg (digits_value ds))
        | _ => None
        end
      else None
  end.

(** A decimal numeral: digits, an optional point and digits (a digit on
    one side of the point at least), an optional exponent. *)
Definition parse_decimal (neg : bool) (s : list ascii) : option float :=
  let '(ds1, r1) := span_digits s in
  let '(ds2, r2) :=
    match r1 with
    | c :: r => if bool_decide (c = "."%char) then span_digits r else ([], r1)
    | [] => ([], [])
    end in
  match ds1 ++ ds2 with
  | [] => None
  | ds =>
      match parse_exponent r2 with
      | Some e => Some (float_of_decimal neg (digits_value ds) (e - Z.of_nat (length ds2)))
      | None => None
      end
  end.

(** The text [float(str)] accepts, and the number it denotes. *)
Definition float_of_string (s : string) : option float :=
  match drop_underscores None (strip (list_ascii_of_string s)) with
  | None => None
  | Some t =>
      let '(neg, body) := take_sign t in
      let word := string_of_list_ascii (map lower body) in
      if String.eqb word "inf" || String.eqb word "infinity" then Some (S754_infinity neg)
      else if String.eqb word "nan" then Some S754_nan
      else parse_decimal neg body
  end.

(** The default of [sys.get_int_max_str_digits()]. *)
Definition int_max_str_digits : Z := 4300.

Inductive int_text : Type :=
| IntOk (n : Z)
| IntInvalid
| IntTooLong (digits : Z).

(** The text [int(str)] accepts in base 10, and the integer it denotes. *)
Definition int_of_string (s : string) : int_text :=
  match drop_underscores None (strip (list_ascii_of_string s)) with
  | None => IntInvalid
  | Some t =>
      let '(neg, body) := take_sign t in
      match span_digits body with
      | ((_ :: _) as ds, []) =>
          if int_max_str_digits <? Z.of_nat (length ds)
          then IntTooLong (Z.of_nat (length ds))
          else IntOk (signed neg (digits_value ds))
      | _ => IntInvalid
      end
  end.

(** *** [repr] of a string and the texts of the builtins' exceptions
    (wording of CPython 3.12) *)

Definition single_quote : ascii := ascii_of_N 39.
Definition double_quote : ascii := ascii_of_N 34.
Definition backslash : ascii := ascii_of_N 92.

Definition is_printable (c : ascii) : bool :=
  let n := code c in
  ((32 <=? n) && (n <? 127)) || ((161 <=? n) && negb (n =? 173)).

Definition hex_digit (n : Z) : ascii :=
  ascii_of_N (Z.to_N (if n <? 10 then 48 + n else 87 + n)).

Definition repr_char (quote c : ascii) : list ascii :=
  let n := code c in
  if bool_decide (c = quote) || bool_decide (c = backslash) then [backslash; c]
  else if n =? 9 then [backslash; "t"%char]
  else if n =? 10 then [backslash; "n"%char]
  else if n =? 13 then [backslash; "r"%char]
  else if is_printable c then [c]
  else [backslash; "x"%char; hex_digit (n / 16); hex_digit (n mod 16)].

Definition has_char (c : ascii) (s : list ascii) : bool :=
  existsb (fun x => bool_decide (x = c)) s.

Definition repr_str (s : string) : string :=
  let cs := list_ascii_of_string s in
  let quote :=
    if has_char single_quote cs && negb (has_char double_quote cs)
    then double_quote else single_quote in
  string_of_list_ascii (quote :: flat_map (repr_char quote) cs ++ [quote]).

Definition take_chars (n : nat) (s : string) : string :=
  string_of_list_ascii (take n (list_ascii_of_string s)).

(** [float(v)] *)
Definition float_ (v : value) : outcome float :=
  match v with
  | VFloat f => Return f
  | VBool b => Return (if b then float_one else float_zero)
  | VInt n =>
      match binary_normalize prec emax n 0 false with
      | S754_infinity _ => Raise (Exc OverflowError "int too large to convert to float")
      | f => Return f
      end
  | VStr s =>
      match float_of_string s with
      | Some f => Return f
      | None => Raise (Exc ValueError ("could not convert string to float: " +:+ repr_str s))
      end
  | _ => Raise (Exc TypeError
                  ("float() argument must be a string or a real number, not '"
                   +:+ type_name v +:+ "'"))
  end.

(** [int(v)]; a [float] is truncated towards zero. *)
Definition int_ (v : value) : outcome Z :=
  match v with
  | VInt n => Return n
  | VBool b => Return (if b then 1 else 0)
  | VFloat f =>
      match f with
      | S754_zero _ => Return 0
      | S754_finite s m e => Return (signed s (Z.shiftl (Zpos m) e))
      | S754_infinity _ =>
          Raise (Exc OverflowError "cannot convert float infinity to integer")
      | S754_nan => Raise (Exc ValueError "cannot convert float NaN to integer")
      end
  | VStr s =>
      match int_of_string s with
      | IntOk n => Return n
      | IntInvalid =>
          Raise (Exc ValueError ("invalid literal for int() with base 10: "
                                 +:+ take_chars 200 (repr_str s)))
      | IntTooLong digits =>
          Raise (Exc ValueError
                   ("Exceeds the limit (" +:+ str_of_Z int_max_str_digits
                    +:+ " digits) for integer string conversion: value has "
                    +:+ str_of_Z digits
                    +:+ " digits; use sys.set_int_max_str_digits() to increase the limit"))
      end
  | _ => Raise (Exc TypeError
                  ("int() argument must be a string, a bytes-like object or a real number, not '"
                   +:+ type_name v +:+ "'"))
  end.

End Py.

Import Py.

(** ** The pydantic models of [server.py] *)

Module ChatRequest.
Record t : Type := {
  message : string;
  agent_type : string;
  context : option (list (string * value))
}.
End ChatRequest.

Module ChatResponse.
Record t : Type := {
  success : bool;
  response : string;
  agent_type : string;
  capabilities : list string;
  metadata : list (string * value);
  error : option string
}.
End ChatResponse.

Module SearchRequest.
Record t : Type := {
  query : string;
  max_results : Z
}.
End SearchRequest.

Module SearchResponse.
Record t : Type := {
  success : bool;
  query : string;
  summary : string;
  search_results : option (list (string * value));
  sources_count : Z;
  error : option string
}.
End SearchResponse.

Module VaultData.
Record t : Type := {
  address : string;
  name : string;
  symbol : string;
  expiry : string;
  chain_id : Z;
  volume_24h : float;
  liquidity : float;
  implied_apy : float;
  underlying_apy : float;
  lp_apy : float;
  pt_price : float;
  yt_price : float
}.

(** The text a pydantic [ValidationError] opens with (its first line). *)
Definition validation_error (errors : nat) : exn :=
  Exc ValidationError
    (str_of_Z (Z.of_nat errors) +:+ " validation error"
     +:+ (if (errors =? 1)%nat then "" else "s") +:+ " for VaultData").

Definition not_str (v : value) : nat :=
  match v with VStr _ => 0%nat | _ => 1%nat end.

(** [VaultData(address=..., ...)]: the four text fields must be [str]
    objects (pydantic does not turn other JSON values into strings);
    [chain_id] is an [int] and the seven metrics are [float] objects when
    the constructor is reached. *)
Definition new (address name symbol expiry : value) (chain_id : Z)
    (volume_24h liquidity implied_apy underlying_apy lp_apy pt_price yt_price : float)
    : outcome t :=
  match address, name, symbol, expiry with
  | VStr a, VStr n, VStr s, VStr e =>
      Return (Build_t a n s e chain_id volume_24h liquidity implied_apy
                underlying_apy lp_apy pt_price yt_price)
  | _, _, _, _ =>
      Raise (validation_error
               (not_str address + not_str name + not_str symbol + not_str expiry))
  end.
End VaultData.

Module VaultsResponse.
Record t : Type := {
  success : bool;
  vaults : list VaultData.t;
  total : Z;
  error : option string
}.
End VaultsResponse.

(** ** The agent collaborators ([ai_agents.agents]) *)

(** Modelled from the spec: the class [AgentResult] of [ai_agents] is not
    part of [server.py]; its fields are those of section 3 of the
    specification ([success], [content], [metadata], [error]). *)
Module AgentResult.
Record t : Type := {
  success : bool;
  content : string;
  metadata : list (string * value);
  error : option string
}.

End AgentResult.

(** What [server.py] uses of the agent classes: the two constructors, which
    take the shared configuration and may raise; [execute], which may change
    the agent object and either returns an [AgentResult] or raises (its
    second argument is [use_tools], [None] when the call does not pass it);
    and [get_capabilities].  [Agent] is the state of an agent object. *)
Class AgentImpl : Type := {
  AgentConfig : Type;
  Agent : Type;
  default_config : AgentConfig;
  SearchAgent : AgentConfig -> outcome Agent;
  ChatAgent : AgentConfig -> outcome Agent;
  execute : Agent -> string -> option bool -> outcome AgentResult.t * Agent;
  get_capabilities : Agent -> outcome (list string)
}.

(** ** Application state and the handlers *)

Section Server.
Context `{AgentImpl}.

(** [request.app.state]: the two attributes the handlers read (an unset
    attribute is [None]) and the agent objects, each at the address its
    constructor call gave it; a reference to an agent is its address.  The
    last two fields record, in order, every constructor call (class name
    and configuration) and every [execute] call (agent, prompt,
    [use_tools]). *)
Record AppState : Type := {
  agent_config : option AgentConfig;
  agent_cache : option (gmap string nat);
  heap : list Agent;
  constructed : list (string * AgentConfig);
  executed : list (nat * string * option bool)
}.

(** A handler: it may change the state and returns or raises. *)
Definition M (A : Type) : Type := AppState -> outcome A * AppState.

Definition ret {A : Type} (a : A) : M A := fun st => (Return a, st).

Definition raise {A : Type} (e : exn) : M A := fun st => (Raise e, st).

Definition lift {A : Type} (o : outcome A) : M A := fun st => (o, st).

Definition bindM {A B : Type} (m : M A) (k : A -> M B) : M B :=
  fun st =>
    match m st with
    | (Return a, st') => k a st'
    | (Raise e, st') => (Raise e, st')
    end.

(** [try: body except ... as exc: handler exc]; the handler re-raises
    the exceptions no [except] clause matches. *)
Definition try_except {A : Type} (body : M A) (handler : exn -> M A) : M A :=
  fun st =>
    match body st with
    | (Return a, st') => (Return a, st')
    | (Raise e, st') => handler e st'
    end.

Notation "x <- m ;; k" := (bindM m (fun x => k))
  (at level 100, m at next level, right associativity).

Definition set_agent_cache (cache : gmap string nat) (st : AppState) : AppState :=
  Build_AppState (agent_config st) (Some cache) (heap st) (constructed st) (executed st).

(** The cache dictionary, empty while the attribute is unset. *)
Definition cache_of (st : AppState) : gmap string nat :=
  match agent_cache st with
  | Some cache => cache
  | None => ∅
  end.

Definition _get_agent_cache : M (gmap string nat) :=
  fun st =>
    match agent_cache st with
    | Some cache => (Return cache, st)
    | None => (Return ∅, set_agent_cache ∅ st)
    end.

(** [request.app.state.agent_config] *)
Definition get_agent_config : M AgentConfig :=
  fun st =>
    match agent_config st with
    | Some config => (Return config, st)
    | None => (Raise (Exc AttributeError "'State' object has no attribute 'agent_config'"), st)
    end.

(** [cache[agent_type] = cls(config)]: the constructor call is recorded;
    when it returns, the new object gets the next free address and the
    cache (the dictionary of the application state itself) is updated. *)
Definition construct_into_cache (agent_type : string)
    (cls : AgentConfig -> outcome Agent) (config : AgentConfig) : M unit :=
  fun st =>
    let st1 := Build_AppState (agent_config st) (agent_cache st) (heap st)
                 (constructed st ++ [(agent_type, config)]) (executed st) in
    match cls config with
    | Raise e => (Raise e, st1)
    | Return agent =>
        (Return tt,
         Build_AppState (agent_config st1)
           (Some (<[agent_type := length (heap st1)]> (cache_of st1)))
           (heap st1 ++ [agent]) (constructed st1) (executed st1))
    end.

(** [cache[agent_type]] *)
Definition cache_item (agent_type : string) : M nat :=
  fun st =>
    match cache_of st !! agent_type with
    | Some agent => (Return agent, st)
    | None => (Raise (Exc KeyError (repr_str agent_type)), st)
    end.

Definition _get_or_create_agent (agent_type : string) : M nat :=
  cache <- _get_agent_cache ;;
  match cache !! agent_type with
  | Some agent => ret agent
  | None =>
      config <- get_agent_config ;;
      _ <- (if String.eqb agent_type "search" then
              construct_into_cache agent_type SearchAgent config
            else if String.eqb agent_type "chat" then
              construct_into_cache agent_type ChatAgent config
            else
              raise (HTTPException 400 ("Unknown agent type '" +:+ agent_type +:+ "'"))) ;;
      cache_item agent_type
  end.

(** The state [lifespan] sets up before the first request. *)
Definition lifespan_state : AppState :=
  Build_AppState (Some default_config) (Some ∅) [] [] [].

(** [await agent.execute(prompt)] and [await agent.execute(prompt,
    use_tools=True)]: the call is recorded and the object is updated in
    place.  A reference always designates a live object (every address a
    handler holds comes from [_get_or_create_agent], see
    [get_or_create_live]); the last case is there for totality only. *)
Definition agent_execute (agent : nat) (prompt : string) (use_tools : option bool)
    : M AgentResult.t :=
  fun st =>
    let log := executed st ++ [(agent, prompt, use_tools)] in
    match heap st !! agent with
    | Some obj =>
        let '(result, obj') := execute obj prompt use_tools in
        (result,
         Build_AppState (agent_config st) (agent_cache st) (<[agent := obj']> (heap st))
           (constructed st) log)
    | None =>
        (Raise (Exc (OtherException "ReferenceError") "no object at this address"),
         Build_AppState (agent_config st) (agent_cache st) (heap st) (constructed st) log)
    end.

(** [agent.get_capabilities()] *)
Definition agent_get_capabilities (agent : nat) : M (list string) :=
  fun st =>
    match heap st !! agent with
    | Some obj => (get_capabilities obj, st)
    | None => (Raise (Exc (OtherException "ReferenceError") "no object at this address"), st)
    end.

Definition chat_with_agent (chat_request : ChatRequest.t) : M ChatResponse.t :=
  try_except
    (agent <- _get_or_create_agent (ChatRequest.agent_type chat_request) ;;
     response <- agent_execute agent (ChatRequest.message chat_request) None ;;
     capabilities <- agent_get_capabilities agent ;;
     ret {| ChatResponse.success := AgentResult.success response;
            ChatResponse.response := AgentResult.content response;
            ChatResponse.agent_type := ChatRequest.agent_type chat_request;
            ChatResponse.capabilities := capabilities;
            ChatResponse.metadata := AgentResult.metadata response;
            ChatResponse.error := AgentResult.error response |})
    (fun exc =>
       if is_HTTPException exc then raise exc
       else if is_Exception exc then
         ret {| ChatResponse.success := false;
                ChatResponse.response := "";
                ChatResponse.agent_type := ChatRequest.agent_type chat_request;
                ChatResponse.capabilities := [];
                ChatResponse.metadata := [];
                ChatResponse.error := Some (str_exn exc) |}
       else raise exc).

Definition search_prompt (query : string) : string :=
  "Search for information about: " +:+ query +:+ ". "
  +:+ "Provide a comprehensive summary with key findings.".

(** [int(metadata.get("tool_run_count", metadata.get("tools_used", 0)) or 0)] *)
Definition sources_count_of (metadata : list (string * value)) : outcome Z :=
  bind (get (VDict metadata) "tools_used" (VInt 0)) (fun tools_used =>
  bind (get (VDict metadata) "tool_run_count" tools_used) (fun tool_run_count =>
  int_ (or_ tool_run_count (VInt 0)))).

Definition search_and_summarize (search_request : SearchRequest.t) : M SearchResponse.t :=
  try_except
    (search_agent <- _get_or_create_agent "search" ;;
     result <- agent_execute search_agent
                 (search_prompt (SearchRequest.query search_request)) (Some true) ;;
     if AgentResult.success result then
       (* metadata = result.metadata or {} *)
       let metadata :=
         if truthy (VDict (AgentResult.metadata result))
         then AgentResult.metadata result else [] in
       sources_count <- lift (sources_count_of metadata) ;;
       ret {| SearchResponse.success := true;
              SearchResponse.query := SearchRequest.query search_request;
              SearchResponse.summary := AgentResult.content result;
              SearchResponse.search_results := Some metadata;
              SearchResponse.sources_count := sources_count;
              SearchResponse.error := None |}
     else
       ret {| SearchResponse.success := false;
              SearchResponse.query := SearchRequest.query search_request;
              SearchResponse.summary := "";
              SearchResponse.search_results := None;
              SearchResponse.sources_count := 0;
              SearchResponse.error := AgentResult.error result |})
    (fun exc =>
       if is_HTTPException exc then raise exc
       else if is_Exception exc then
         ret {| SearchResponse.success := false;
                SearchResponse.query := SearchRequest.query search_request;
                SearchResponse.summary := "";
                SearchResponse.search_results := None;
                SearchResponse.sources_count := 0;
                SearchResponse.error := Some (str_exn exc) |}
       else raise exc).

(** The answer is a plain [dict]. *)
Definition get_agent_capabilities : M value :=
  try_except
    (search_agent <- _get_or_create_agent "search" ;;
     chat_agent <- _get_or_create_agent "chat" ;;
     search_capabilities <- agent_get_capabilities search_agent ;;
     chat_capabilities <- agent_get_capabilities chat_agent ;;
     ret (VDict [ ("success", VBool true);
                  ("capabilities",
                   VDict [ ("search_agent", VList (map VStr search_capabilities));
                           ("chat_agent", VList (map VStr chat_capabilities)) ]) ]))
    (fun exc =>
       if is_HTTPException exc then raise exc
       else if is_Exception exc then
         ret (VDict [ ("success", VBool false); ("error", VStr (str_exn exc)) ])
       else raise exc).

(** [n] calls in a row for the same agent type: the outcome of each call
    and the state after the last. *)
Fixpoint get_or_create_repeatedly (n : nat) (agent_type : string) (st : AppState)
    : list (outcome nat) * AppState :=
  match n with
  | O => ([], st)
  | S n' =>
      let '(r, st1) := _get_or_create_agent agent_type st in
      let '(rs, st2) := get_or_create_repeatedly n' agent_type st1 in
      (r :: rs, st2)
  end.

End Server.

(** ** The vault listing *)

(** What [client.get(url)] hands back when it does not raise: the status
    code, the text of the [HTTPStatusError] that [raise_for_status] builds
    for this response, and what [response.json()] does. *)
Module Response.
Record t : Type := {
  status_code : Z;
  status_error : string;
  json : outcome value
}.

(** [response.raise_for_status()]: any status outside 200..299 raises
    ([Response.is_success] of httpx). *)
Definition raise_for_status (r : t) : outcome unit :=
  if (200 <=? status_code r) && (status_code r <=? 299) then Return tt
  else Raise (Exc (HttpxError HTTPStatusError) (status_error r)).
End Response.

Definition pendle_api_url (chain_id : Z) : string :=
  "https://api-v2.pendle.finance/core/v1/" +:+ str_of_Z chain_id +:+ "/markets/active".

(** The body of the inner [try]: one market entry made into a
    [VaultData].  The keyword arguments are evaluated in the order they
    are written, then the model is validated. *)
Definition coerce_market (chain_id : Z) (market : value) : outcome VaultData.t :=
  bind (get market "details" (VDict [])) (fun details =>
  bind (get market "address" (VStr "")) (fun address =>
  bind (get market "name" (VStr "Unknown")) (fun name =>
  bind (get market "symbol" (VStr "")) (fun symbol =>
  bind (get market "expiry" (VStr "")) (fun expiry =>
  bind (bind (get details "volume24h" (VInt 0)) float_) (fun volume_24h =>
  bind (bind (get details "liquidity" (VInt 0)) float_) (fun liquidity =>
  bind (bind (get details "impliedApy" (VInt 0)) float_) (fun implied_apy =>
  bind (bind (get details "underlyingApy" (VInt 0)) float_) (fun underlying_apy =>
  bind (bind (get details "lpApy" (VInt 0)) float_) (fun lp_apy =>
  bind (bind (get details "ptPrice" (VInt 0)) float_) (fun pt_price =>
  bind (bind (get details "ytPrice" (VInt 0)) float_) (fun yt_price =>
  VaultData.new address name symbol expiry chain_id
    volume_24h liquidity implied_apy underlying_apy lp_apy pt_price yt_price)))))))))))).

(** The [for] loop: [vaults] is the list built so far.  A [ValueError],
    [TypeError] or [KeyError] of an entry is logged and the loop goes on
    with the next entry ([market] is a [dict] whenever this handler runs,
    so its log line does not raise); any other exception leaves the loop. *)
Fixpoint collect_vaults (chain_id : Z) (markets : list value) (vaults : list VaultData.t)
    : outcome (list VaultData.t) :=
  match markets with
  | [] => Return vaults
  | market :: rest =>
      match coerce_market chain_id market with
      | Return vault => collect_vaults chain_id rest (vaults ++ [vault])
      | Raise e =>
          if is_ValueError_TypeError_KeyError e
          then collect_vaults chain_id rest vaults
          else Raise e
      end
  end.

(** The body of the outer [try]. *)
Definition fetch_vaults (client_get : string -> outcome Response.t) (chain_id : Z)
    : outcome VaultsResponse.t :=
  bind (client_get (pendle_api_url chain_id)) (fun response =>
  bind (Response.raise_for_status response) (fun _ =>
  bind (Response.json response) (fun data =>
  bind (get data "markets" (VList [])) (fun markets =>
  bind (iter markets) (fun markets =>
  bind (collect_vaults chain_id markets []) (fun vaults =>
  Return {| VaultsResponse.success := true;
            VaultsResponse.vaults := vaults;
            VaultsResponse.total := Z.of_nat (length vaults);
            VaultsResponse.error := None |})))))).

(** [client_get] is the network as the one request of the call sees it. *)
Definition get_pendle_vaults (client_get : string -> outcome Response.t) (chain_id : Z)
    : outcome VaultsResponse.t :=
  match fetch_vaults client_get chain_id with
  | Return r => Return r
  | Raise exc =>
      if is_HTTPError exc then
        Return {| VaultsResponse.success := false;
                  VaultsResponse.vaults := [];
                  VaultsResponse.total := 0;
                  VaultsResponse.error := Some ("Failed to fetch vaults: " +:+ str_exn exc) |}
      else if is_Exception exc then
        Return {| VaultsResponse.success := false;
                  VaultsResponse.vaults := [];
                  VaultsResponse.total := 0;
                  VaultsResponse.error := Some (str_exn exc) |}
      else Raise exc
  end.

(** ** Notions the statements below use *)

(** Every key of the cache is one of the two agent types the registry
    constructs. *)
Definition cache_recognized `{AgentImpl} (st : AppState) : Prop :=
  forall key, is_Some (cache_of st !! key) -> key = "chat" \/ key = "search".

(** Every cached reference designates an object. *)
Definition cache_in_heap `{AgentImpl} (st : AppState) : Prop :=
  forall key agent, cache_of st !! key = Some agent -> (agent < length (heap st))%nat.

(** What [lifespan] establishes and every handler keeps: the configuration
    is set and the cache is in order. *)
Definition ready `{AgentImpl} (st : AppState) : Prop :=
  is_Some (agent_config st) /\ cache_recognized st /\ cache_in_heap st.

(** A handler keeps a property of the state, whether it returns or raises. *)
Definition preserves `{AgentImpl} (P : AppState -> Prop) {A : Type} (m : M A) : Prop :=
  forall st, P st -> P (snd (m st)).

(** The states the server goes through: the one [lifespan] sets up, then
    the one each handled request leaves. *)
Inductive reachable `{AgentImpl} : AppState -> Prop :=
| reachable_start : reachable lifespan_state
| reachable_chat chat_request st :
    reachable st -> reachable (snd (chat_with_agent chat_request st))
| reachable_search search_request st :
    reachable st -> reachable (snd (search_and_summarize search_request st))
| reachable_capabilities st :
    reachable st -> reachable (snd (get_agent_capabilities st)).

(** The constructor [_get_or_create_agent] calls for a recognized type. *)
Definition constructor_of `{AgentImpl} (agent_type : string)
    : AgentConfig -> outcome Agent :=
  if String.eqb agent_type "search" then SearchAgent else ChatAgent.

(** First-present-wins: the value under ["tool_run_count"], else the one
    under ["tools_used"], else [0]. *)
Definition winning_value (metadata : list (string * value)) : value :=
  match dict_lookup "tool_run_count" metadata with
  | Some v => v
  | None =>
      match dict_lookup "tools_used" metadata with
      | Some v => v
      | None => VInt 0
      end
  end.

(** The records of a market list that survive coercion, in input order. *)
Definition survivors (chain_id : Z) (markets : list value) : list VaultData.t :=
  omap (fun market =>
          match coerce_market chain_id market with
          | Return vault => Some vault
          | Raise _ => None
          end) markets.

Definition coerces (chain_id : Z) (market : value) : bool :=
  match coerce_market chain_id market with
  | Return _ => true
  | Raise _ => false
  end.

(** The seven metrics: the key read in [details] and the field it fills. *)
Definition numeric_fields : list (string * (VaultData.t -> float)) :=
  [ ("volume24h", VaultData.volume_24h);
    ("liquidity", VaultData.liquidity);
    ("impliedApy", VaultData.implied_apy);
    ("underlyingApy", VaultData.underlying_apy);
    ("lpApy", VaultData.lp_apy);
    ("ptPrice", VaultData.pt_price);
    ("ytPrice", VaultData.yt_price) ].

(** The transport or HTTP fault of a fetch, if there is one: [client.get]
    raised an [httpx.HTTPError] (a timeout, a connection error), or the
    status is not a 2xx one. *)
Definition transport_fault (fetched : outcome Response.t) : option exn :=
  match fetched with
  | Raise e => if is_HTTPError e then Some e else None
  | Return response =>
      match Response.raise_for_status response with
      | Raise e => Some e
      | Return _ => None
      end
  end.

(** ** Test doubles and sample payloads *)

(** A stub agent implementation in the manner of section 8 of the
    specification: the constructors always return, [execute] always gives
    [reply], the capabilities are [caps]; an agent object counts its calls. *)
Definition stub_agents (reply : outcome AgentResult.t) (caps : list string) : AgentImpl :=
  {| AgentConfig := unit;
     Agent := nat;
     default_config := tt;
     SearchAgent := fun _ => Return 0%nat;
     ChatAgent := fun _ => Return 0%nat;
     execute := fun calls _ _ => (reply, S calls);
     get_capabilities := fun _ => Return caps |}.

Definition hello_result : AgentResult.t :=
  {| AgentResult.success := true;
     AgentResult.content := "hello";
     AgentResult.metadata := [];
     AgentResult.error := None |}.


Definition found_result (metadata : list (string * value)) : AgentResult.t :=
  {| AgentResult.success := true;
     AgentResult.content := "summary";
     AgentResult.metadata := metadata;
     AgentResult.error := None |}.

Definition good_details : list (string * value) :=
  [ ("liquidity", VInt 1250); ("impliedApy", VStr "0.5") ].

Definition good_entry : list (string * value) :=
  [ ("address", VStr "0xA"); ("name", VStr "PT-stETH"); ("symbol", VStr "PT");
    ("expiry", VStr "2025-12-25"); ("details", VDict good_details) ].

Definition good_market : value := VDict good_entry.

Definition good_vault (chain_id : Z) : VaultData.t :=
  {| VaultData.address := "0xA"; VaultData.name := "PT-stETH"; VaultData.symbol := "PT";
     VaultData.expiry := "2025-12-25"; VaultData.chain_id := chain_id;
     VaultData.volume_24h := float_zero;
     VaultData.liquidity := S754_finite false 5497558138880000 (-42);
     VaultData.implied_apy := S754_finite false 4503599627370496 (-53);
     VaultData.underlying_apy := float_zero; VaultData.lp_apy := float_zero;
     VaultData.pt_price := float_zero; VaultData.yt_price := float_zero |}.

(** The entry of scenario 8 of the specification: a liquidity that is not
    a number. *)
Definition bad_details : list (string * value) :=
  [ ("liquidity", VStr "not-a-number") ].

Definition bad_entry : list (string * value) :=
  [ ("address", VStr "0xB"); ("name", VStr "PT-bad"); ("symbol", VStr "PT");
    ("expiry", VStr "2025-12-25"); ("details", VDict bad_details) ].

Definition bad_liquidity_market : value := VDict bad_entry.

(** An entry whose [details] is [null]. *)
Definition null_details_market : value :=
  VDict [ ("address", VStr "0xC"); ("details", VNone) ].

(** A provider that answers every URL with status 200 and the given body. *)
Definition provider_ok (body : value) : string -> outcome Response.t :=
  fun _ => Return {| Response.status_code := 200;
                     Response.status_error := "";
                     Response.json := Return body |}.

Definition provider_status (status_code : Z) (text : string) : string -> outcome Response.t :=
  fun _ => Return {| Response.status_code := status_code;
                     Response.status_error := text;
                     Response.json := Return (VDict []) |}.

Definition markets_payload (markets : list value) : value :=
  VDict [ ("markets", VList markets) ].




Definition boom : exn := Exc (OtherException "RuntimeError") "boom".

Definition upstream_unavailable : exn := HTTPException 503 "upstream unavailable".

Definition hi_request : ChatRequest.t :=
  {| ChatRequest.message := "hi";
     ChatRequest.agent_type := "chat";
     ChatRequest.context := None |}.

Definition pendle_search (max_results : Z) : SearchRequest.t :=
  {| SearchRequest.query := "pendle"; SearchRequest.max_results := max_results |}.

(** The stub agents of the examples: one that answers, one that reports a
    failure, two whose [execute] raises, two that report tool counters. *)
Definition hello_agents : AgentImpl := stub_agents (Return hello_result) ["chat"].


Definition boom_agents : AgentImpl := stub_agents (Raise boom) ["chat"].

Definition unavailable_agents : AgentImpl := stub_agents (Raise upstream_unavailable) ["chat"].

Definition negative_count_agents : AgentImpl :=
  stub_agents (Return (found_result [("tool_run_count", VInt (-3)); ("tools_used", VInt 7)]))
    ["search"].

Definition text_count_agents : AgentImpl :=
  stub_agents (Return (found_result [("tools_used", VStr "many")])) ["search"].

(** ** The single vault, the status checks and start-up *)

Definition vault_details_url (chain_id : Z) (vault_address : string) : string :=
  "https://api-v2.pendle.finance/core/v2/" +:+ str_of_Z chain_id
  +:+ "/markets/" +:+ vault_address +:+ "/data".

(** The body of the [try] of [get_vault_details]: the answer is a plain
    [dict] around the provider's JSON. *)
Definition fetch_vault_details (client_get : string -> outcome Response.t)
    (vault_address : string) (chain_id : Z) : outcome value :=
  bind (client_get (vault_details_url chain_id vault_address)) (fun response =>
  bind (Response.raise_for_status response) (fun _ =>
  bind (Response.json response) (fun data =>
  Return (VDict [ ("success", VBool true); ("data", data) ])))).

Definition get_vault_details (client_get : string -> outcome Response.t)
    (vault_address : string) (chain_id : Z) : outcome value :=
  match fetch_vault_details client_get vault_address chain_id with
  | Return r => Return r
  | Raise exc =>
      if is_HTTPError exc then
        Raise (HTTPException 500 ("Failed to fetch vault details: " +:+ str_exn exc))
      else if is_Exception exc then
        Raise (HTTPException 500 (str_exn exc))
      else Raise exc
  end.

(** [root] *)
Definition root : value := VDict [ ("message", VStr "Hello World") ].

Module StatusCheck.
(** [timestamp] is an instant, in microseconds since the epoch (UTC). *)
Record t : Type := {
  id : string;
  client_name : string;
  timestamp : Z
}.
End StatusCheck.

Module StatusCheckCreate.
Record t : Type := {
  client_name : string
}.
End StatusCheckCreate.

(** What [server.py] uses of its surroundings besides the agents: the
    Mongo driver (a client made from a URL, [client[name]], and on a
    database the two operations on its [status_checks] collection, each of
    which may change the database and may raise), the documents it stores
    and hands back, and the sources of identifiers and of time behind the
    default factories of [StatusCheck].  [document_of] is [model_dump];
    [status_check_of] is [StatusCheck] called on the fields of a document,
    which draws on the
    factories when the document lacks a field and raises when it does
    not validate. *)
Class StoreImpl : Type := {
  Client : Type;
  Database : Type;
  Document : Type;
  World : Type;
  AsyncIOMotorClient : string -> outcome Client;
  get_database : Client -> string -> outcome Database;
  insert_one : Database -> Document -> outcome unit * Database;
  find_to_list : Database -> nat -> outcome (list Document) * Database;
  uuid4 : World -> string * World;
  now : World -> Z * World;
  document_of : StatusCheck.t -> Document;
  status_check_of : Document -> World -> outcome StatusCheck.t * World
}.

Section Status.
Context `{StoreImpl}.

(** [request.app.state.db] (an unset attribute is [None]) and the world
    the default factories draw from. *)
Record StatusState : Type := {
  db : option Database;
  world : World
}.

Definition MS (A : Type) : Type := StatusState -> outcome A * StatusState.

Definition bindS {A B : Type} (m : MS A) (k : A -> MS B) : MS B :=
  fun st =>
    match m st with
    | (Return a, st') => k a st'
    | (Raise e, st') => (Raise e, st')
    end.

Definition _ensure_db : MS Database :=
  fun st =>
    match db st with
    | Some database => (Return database, st)
    | None => (Raise (HTTPException 503 "Database not ready"), st)
    end.

(** [StatusCheck] called on the fields of [input]: [id] then [timestamp]
    come from their default factories. *)
Definition new_status_check (input : StatusCheckCreate.t) : MS StatusCheck.t :=
  fun st =>
    let '(id, w1) := uuid4 (world st) in
    let '(timestamp, w2) := now w1 in
    (Return {| StatusCheck.id := id;
               StatusCheck.client_name := StatusCheckCreate.client_name input;
               StatusCheck.timestamp := timestamp |},
     {| db := db st; world := w2 |}).

(** [await db.status_checks.insert_one(document)] *)
Definition db_insert_one (database : Database) (document : Document) : MS unit :=
  fun st =>
    let '(r, database') := insert_one database document in
    (r, {| db := Some database'; world := world st |}).

(** [await db.status_checks.find().to_list(limit)] *)
Definition db_find_to_list (database : Database) (limit : nat) : MS (list Document) :=
  fun st =>
    let '(r, database') := find_to_list database limit in
    (r, {| db := Some database'; world := world st |}).

Definition create_status_check (input : StatusCheckCreate.t) : MS StatusCheck.t :=
  bindS _ensure_db (fun database =>
  bindS (new_status_check input) (fun status_obj =>
  bindS (db_insert_one database (document_of status_obj)) (fun _ =>
  fun st => (Return status_obj, st)))).

(** The list comprehension that makes a [StatusCheck] of each document. *)
Fixpoint status_checks_of (documents : list Document) : MS (list StatusCheck.t) :=
  match documents with
  | [] => fun st => (Return [], st)
  | document :: rest =>
      bindS (fun st =>
               let '(r, w) := status_check_of document (world st) in
               (r, {| db := db st; world := w |})) (fun status_check =>
      bindS (status_checks_of rest) (fun status_checks =>
      fun st => (Return (status_check :: status_checks), st)))
  end.

Definition get_status_checks : MS (list StatusCheck.t) :=
  bindS _ensure_db (fun database =>
  bindS (db_find_to_list database 1000) (fun status_checks =>
  status_checks_of status_checks)).

(** [converts documents w status_checks w']: the status checks are what
    [StatusCheck] makes of the documents, one for each, in their order,
    the first in the world [w] and the last leaving the world [w']. *)
Inductive converts : list Document -> World -> list StatusCheck.t -> World -> Prop :=
| converts_nil (w : World) : converts [] w [] w
| converts_cons (document : Document) (documents : list Document) (w w1 w2 : World)
    (status_check : StatusCheck.t) (status_checks : list StatusCheck.t) :
    status_check_of document w = (Return status_check, w1) ->
    converts documents w1 status_checks w2 ->
    converts (document :: documents) w (status_check :: status_checks) w2.

End Status.

(** [not value] for what [os.getenv] returns. *)
Definition unset (v : option string) : bool :=
  match v with
  | None => true
  | Some s => String.eqb s ""
  end.

Definition missing_variables (mongo_url db_name : option string) : list string :=
  (if unset mongo_url then ["MONGO_URL"] else [])
  ++ (if unset db_name then ["DB_NAME"] else []).

(** What [lifespan] has put in [app.state] when it yields. *)
Record Started `{AgentImpl} `{StoreImpl} : Type := {
  mongo_client : Client;
  started_db : Database;
  started_agents : AppState
}.

(** [lifespan]: [getenv] is the environment once the [.env] file is
    loaded, [serve] is the life of the application between start-up and
    shutdown (what happens at the [yield]).  The second component tells
    whether [client.close()] was called.  A variable that is not set is
    caught by the first test, so the last case is never taken. *)
Definition lifespan `{AgentImpl} `{StoreImpl} (getenv : string -> option string)
    (serve : Started -> outcome unit) : outcome unit * bool :=
  let mongo_url := getenv "MONGO_URL" in
  let db_name := getenv "DB_NAME" in
  let missing :=
    Raise (Exc (OtherException "RuntimeError")
             ("Missing required environment variables: "
              +:+ String.concat ", " (missing_variables mongo_url db_name))) in
  if unset mongo_url || unset db_name then (missing, false)
  else
    match mongo_url, db_name with
    | Some url, Some name =>
        match AsyncIOMotorClient url with
        | Raise e => (Raise e, false)
        | Return client =>
            (* try: ... yield  finally: client.close() *)
            (bind (get_database client name) (fun database =>
             serve {| mongo_client := client;
                      started_db := database;
                      started_agents := lifespan_state |}),
             true)
        end
    | _, _ => (missing, false)
    end.

(** ** Further notions and test doubles *)

(** As many agent objects as cached types. *)
Definition heap_matches_cache `{AgentImpl} (st : AppState) : Prop :=
  length (heap st) = size (cache_of st).

(** The number of constructor calls recorded for a type. *)
Definition constructions `{AgentImpl} (agent_type : string) (st : AppState) : nat :=
  length (List.filter (fun entry => String.eqb (fst entry) agent_type) (constructed st)).

(** The four text fields: the key read in the market entry, the default
    of the [get], and the field it fills. *)
Definition text_fields : list (string * string * (VaultData.t -> string)) :=
  [ ("address", "", VaultData.address);
    ("name", "Unknown", VaultData.name);
    ("symbol", "", VaultData.symbol);
    ("expiry", "", VaultData.expiry) ].

(** An entry the loop of the listing gets past: it coerces, or raises an
    exception the inner handler catches. *)
Definition skippable (chain_id : Z) (market : value) : Prop :=
  match coerce_market chain_id market with
  | Return _ => True
  | Raise e => is_ValueError_TypeError_KeyError e = true
  end.

Definition vaults_failure (text : string) : VaultsResponse.t :=
  {| VaultsResponse.success := false;
     VaultsResponse.vaults := [];
     VaultsResponse.total := 0;
     VaultsResponse.error := Some text |}.

(** A stub whose search constructor raises and whose chat agent answers. *)
Definition broken_search_agents : AgentImpl :=
  {| AgentConfig := unit;
     Agent := nat;
     default_config := tt;
     SearchAgent := fun _ => Raise boom;
     ChatAgent := fun _ => Return 0%nat;
     execute := fun calls _ _ => (Return hello_result, S calls);
     get_capabilities := fun _ => Return ["chat"] |}.

(** An entry without a name. *)
Definition null_market_name : value :=
  VDict [ ("address", VStr "0xE"); ("symbol", VStr "PT"); ("expiry", VStr "2026-01-01") ].

(** A state whose [agent_cache] attribute is not set, and one whose
    [agent_config] attribute is not set. *)
Definition no_cache_state `{AgentImpl} : AppState :=
  Build_AppState (Some default_config) None [] [] [].

Definition no_config_state `{AgentImpl} : AppState :=
  Build_AppState None (Some ∅) [] [] [].

Definition bogus_request : ChatRequest.t :=
  {| ChatRequest.message := "x";
     ChatRequest.agent_type := "bogus";
     ChatRequest.context := None |}.

Definition null_count_agents : AgentImpl :=
  stub_agents (Return (found_result [("tool_run_count", VNone); ("tools_used", VInt 7)]))
    ["search"].

(** A store kept in memory: a database is the list of its documents,
    oldest first; the world is a counter. *)
Definition memory_store : StoreImpl :=
  {| Client := string;
     Database := list StatusCheck.t;
     Document := StatusCheck.t;
     World := Z;
     AsyncIOMotorClient := fun url => Return url;
     get_database := fun _ _ => Return [];
     insert_one := fun database document => (Return tt, database ++ [document]);
     find_to_list := fun database limit => (Return (take limit database), database);
     uuid4 := fun w => ("uuid-" +:+ str_of_Z w, w + 1);
     now := fun w => (w, w + 1);
     document_of := fun status_check => status_check;
     status_check_of := fun document w => (Return document, w) |}.

Definition probe : StatusCheckCreate.t := {| StatusCheckCreate.client_name := "probe" |}.

Definition probe_check : StatusCheck.t :=
  {| StatusCheck.id := "uuid-0"; StatusCheck.client_name := "probe";
     StatusCheck.timestamp := 1 |}.

Definition not_ready_state : @StatusState memory_store :=
  @Build_StatusState memory_store None 0.

Definition empty_store_state : @StatusState memory_store :=
  @Build_StatusState memory_store (Some []) 0.

Definition one_check_state : @StatusState memory_store :=
  @Build_StatusState memory_store (Some [probe_check]) 2.

Definition second_check : StatusCheck.t :=
  {| StatusCheck.id := "uuid-2"; StatusCheck.client_name := "second";
     StatusCheck.timestamp := 3 |}.

Definition two_checks_state : @StatusState memory_store :=
  @Build_StatusState memory_store (Some [probe_check; second_check]) 4.

Definition env_of (mongo_url db_name : option string) : string -> option string :=
  fun name =>
    if String.eqb name "MONGO_URL" then mongo_url
    else if String.eqb name "DB_NAME" then db_name
    else None.

(** ** Notions and test doubles for exceptions that are not [Exception]s *)

(** An integer beyond the range of a [float]: the one value for which
    [float] raises an exception the inner handler of the listing does not
    catch ([OverflowError]). *)
Definition overflows (v : value) : bool :=
  match v with
  | VInt n =>
      match binary_normalize prec emax n 0 false with
      | S754_infinity _ => true
      | _ => false
      end
  | _ => false
  end.

Definition overflow_error : exn := Exc OverflowError "int too large to convert to float".

(** An exception of the kind the code of the listing itself raises: it
    derives from [Exception] and is not an [httpx.HTTPError], so the last
    [except] clause answers it with its bare text. *)
Definition record_level (e : exn) : bool :=
  is_Exception e && negb (is_HTTPError e).


(** The exception came from the request itself: [client.get] raised it,
    or [response.json()] did once the status was accepted. *)
Definition raised_by_request (fetched : outcome Response.t) (exc : exn) : Prop :=
  fetched = Raise exc
  \/ exists response,
       fetched = Return response
       /\ Response.raise_for_status response = Return tt
       /\ Response.json response = Raise exc.

(** The exception came from an agent collaborator of the request: a
    constructor, [execute] or [get_capabilities] raised it. *)
Definition raised_by_agents `{AgentImpl} (exc : exn) : Prop :=
  (exists config, SearchAgent config = Raise exc)
  \/ (exists config, ChatAgent config = Raise exc)
  \/ (exists obj prompt use_tools obj', execute obj prompt use_tools = (Raise exc, obj'))
  \/ (exists obj, get_capabilities obj = Raise exc).

(** The task of the request is cancelled while it awaits. *)
Definition cancelled : exn := Exc CancelledError "".

Definition cancelled_agents : AgentImpl := stub_agents (Raise cancelled) ["chat"].

(** A provider whose request is cancelled. *)
Definition provider_cancelled : string -> outcome Response.t :=
  fun _ => Raise cancelled.



(** ** The builtins on sample values *)

Example float_of_text :
  float_ (VStr " 1_000.25e-2 ") = Return (S754_finite false 5630906909096673 (-49))
  /\ float_ (VStr "0.1") = Return (S754_finite false 7205759403792794 (-56))
  /\ float_ (VStr "-inf") = Return (S754_infinity true)
  /\ float_ (VStr "1e400") = Return (S754_infinity false).
Proof. repeat split. Qed.

(** Ties go to the even neighbour, below and above [2^53 + 1]. *)
Example float_rounds_to_even :
  float_ (VInt 9007199254740993) = Return (S754_finite false 4503599627370496 1)
  /\ float_ (VStr "9007199254740993.0000000000000001")
     = Return (S754_finite false 4503599627370497 1).
Proof. split; vm_compute; reflexivity. Qed.

Example float_rejects :
  float_ VNone
  = Raise (Exc TypeError "float() argument must be a string or a real number, not 'NoneType'")
  /\ float_ (VStr "1_") = Raise (Exc ValueError "could not convert string to float: '1_'")
  /\ float_ (VInt (2 ^ 1024)) = Raise (Exc OverflowError "int too large to convert to float").
Proof. repeat split. Qed.

Example int_of_values :
  int_ (VStr " -1_2 ") = Return (-12)
  /\ int_ (VFloat (S754_finite true 7 (-1))) = Return (-3)
  /\ int_ (VBool true) = Return 1
  /\ int_ (VStr "12.5")
     = Raise (Exc ValueError "invalid literal for int() with base 10: '12.5'")
  /\ int_ (or_ VNone (VInt 0)) = Return 0
  /\ int_ (or_ (VStr "") (VInt 0)) = Return 0.
Proof. repeat split. Qed.

(** ** The registry *)

Section RegistryFacts.
Context `{AgentImpl}.

Lemma cache_of_Some (st : AppState) (key : string) (agent : nat) :
  cache_of st !! key = Some agent -> agent_cache st = Some (cache_of st).
Proof.
  unfold cache_of. destruct (agent_cache st) as [cache|]; [reflexivity|].
  rewrite lookup_empty. discriminate.
Qed.

(** A cached type is answered from the cache: nothing is constructed, the
    configuration is not read, the state stays as it is. *)
Lemma get_or_create_hit (agent_type : string) (agent : nat) (st : AppState) :
  cache_of st !! agent_type = Some agent ->
  _get_or_create_agent agent_type st = (Return agent, st).
Proof.
  intros Hhit. pose proof (cache_of_Some _ _ _ Hhit) as Hcache.
  unfold _get_or_create_agent, bindM, _get_agent_cache.
  rewrite Hcache, Hhit. reflexivity.
Qed.

(** After [_get_agent_cache] the attribute is set, to the dictionary it
    returns. *)
Lemma get_agent_cache_eq (st : AppState) :
  _get_agent_cache st = (Return (cache_of st), set_agent_cache (cache_of st) st).
Proof.
  unfold _get_agent_cache, cache_of, set_agent_cache.
  destruct st as [config [cache|] objs ctor exec]; reflexivity.
Qed.

Lemma construct_into_cache_returns (agent_type : string)
    (cls : AgentConfig -> outcome Agent) (config : AgentConfig) (obj : Agent)
    (st : AppState) :
  cls config = Return obj ->
  construct_into_cache agent_type cls config st =
    (Return tt,
     Build_AppState (agent_config st)
       (Some (<[agent_type := length (heap st)]> (cache_of st)))
       (heap st ++ [obj]) (constructed st ++ [(agent_type, config)]) (executed st)).
Proof.
  intros Hcls. unfold construct_into_cache. rewrite Hcls. reflexivity.
Qed.

(** For a recognized type the branches of [_get_or_create_agent] call the
    constructor of that type. *)
Lemma recognized_branch (agent_type : string) (config : AgentConfig) :
  agent_type = "chat" \/ agent_type = "search" ->
  (if String.eqb agent_type "search" then
     construct_into_cache agent_type SearchAgent config
   else if String.eqb agent_type "chat" then
     construct_into_cache agent_type ChatAgent config
   else
     raise (HTTPException 400 ("Unknown agent type '" +:+ agent_type +:+ "'")))
  = construct_into_cache agent_type (constructor_of agent_type) config.
Proof.
  unfold constructor_of. intros [-> | ->]; reflexivity.
Qed.

(** The first call for a recognized type constructs the agent once and
    stores it under its type. *)
Lemma get_or_create_miss (agent_type : string) (st : AppState)
    (config : AgentConfig) (obj : Agent) :
  agent_type = "chat" \/ agent_type = "search" ->
  agent_config st = Some config ->
  cache_of st !! agent_type = None ->
  constructor_of agent_type config = Return obj ->
  _get_or_create_agent agent_type st =
    (Return (length (heap st)),
     Build_AppState (Some config)
       (Some (<[agent_type := length (heap st)]> (cache_of st)))
       (heap st ++ [obj]) (constructed st ++ [(agent_type, config)]) (executed st)).
Proof.
  intros Hty Hconfig Hmiss Hctor.
  unfold _get_or_create_agent, bindM.
  rewrite get_agent_cache_eq, Hmiss.
  unfold get_agent_config. cbn [agent_config set_agent_cache]. rewrite Hconfig.
  rewrite (recognized_branch _ _ Hty).
  rewrite (construct_into_cache_returns _ _ _ _ _ Hctor).
  unfold cache_item, cache_of.
  cbn [agent_config agent_cache heap constructed executed set_agent_cache].
  rewrite lookup_insert_eq, Hconfig. reflexivity.
Qed.

Lemma repeatedly_hit (n : nat) (agent_type : string) (agent : nat) (st : AppState) :
  cache_of st !! agent_type = Some agent ->
  get_or_create_repeatedly n agent_type st = (replicate n (Return agent), st).
Proof.
  intros Hhit. induction n as [|n IH]; cbn [get_or_create_repeatedly replicate].
  - reflexivity.
  - rewrite (get_or_create_hit _ _ _ Hhit), IH. reflexivity.
Qed.

(** C1. For a recognized agent type that is not cached yet, whose
    constructor returns: [n + 1] calls in a row all return the same
    reference, the address the first call gave the new object; the
    constructor was called once, with the configuration of the state, by
    the first call; and the state after the last call is the state the
    first call left, so that no later call constructs or configures
    anything. *)
Theorem get_or_create_idempotent (agent_type : string) (n : nat) (st : AppState)
    (config : AgentConfig) (obj : Agent) :
  agent_type = "chat" \/ agent_type = "search" ->
  agent_config st = Some config ->
  cache_of st !! agent_type = None ->
  constructor_of agent_type config = Return obj ->
  let agent := length (heap st) in
  let st1 := snd (_get_or_create_agent agent_type st) in
  get_or_create_repeatedly (S n) agent_type st = (replicate (S n) (Return agent), st1)
  /\ constructed st1 = constructed st ++ [(agent_type, config)]
  /\ heap st1 = heap st ++ [obj]
  /\ cache_of st1 !! agent_type = Some agent
  /\ forall k, get_or_create_repeatedly k agent_type st1 = (replicate k (Return agent), st1).
Proof.
  intros Hty Hconfig Hmiss Hctor agent st1.
  pose proof (get_or_create_miss _ _ _ _ Hty Hconfig Hmiss Hctor) as Hfirst.
  assert (Hhit : cache_of st1 !! agent_type = Some agent).
  { subst st1. rewrite Hfirst. unfold cache_of. cbn. apply lookup_insert_eq. }
  assert (Hlater : forall k,
             get_or_create_repeatedly k agent_type st1 = (replicate k (Return agent), st1)).
  { intros k. apply repeatedly_hit, Hhit. }
  split; [|split; [|split; [|split]]].
  - cbn [get_or_create_repeatedly replicate].
    destruct (_get_or_create_agent agent_type st) as [r st'] eqn:Hcall.
    injection Hfirst as -> Hst'. subst st1. cbn [snd] in Hlater |- *.
    rewrite Hlater. reflexivity.
  - subst st1. rewrite Hfirst. reflexivity.
  - subst st1. rewrite Hfirst. reflexivity.
  - exact Hhit.
  - exact Hlater.
Qed.

Lemma unrecognized_miss (agent_type : string) (st : AppState) :
  agent_type <> "chat" -> agent_type <> "search" -> cache_recognized st ->
  cache_of st !! agent_type = None.
Proof.
  intros Hchat Hsearch Hrec.
  destruct (cache_of st !! agent_type) as [agent|] eqn:Hlook; [|reflexivity].
  destruct (Hrec agent_type) as [-> | ->]; [eauto | contradiction..].
Qed.

(** C6. An agent type other than ["chat"] and ["search"] is refused with
    the client error 400 whose detail quotes the type; no constructor is
    called, no object is made, and the cache holds what it held. *)
Theorem unknown_agent_type_rejected (agent_type : string) (st : AppState)
    (config : AgentConfig) :
  agent_type <> "chat" -> agent_type <> "search" ->
  agent_config st = Some config ->
  cache_recognized st ->
  let st' := snd (_get_or_create_agent agent_type st) in
  fst (_get_or_create_agent agent_type st)
    = Raise (HTTPException 400 ("Unknown agent type '" +:+ agent_type +:+ "'"))
  /\ cache_of st' = cache_of st
  /\ heap st' = heap st
  /\ constructed st' = constructed st
  /\ agent_config st' = agent_config st.
Proof.
  intros Hchat Hsearch Hconfig Hrec st'.
  pose proof (unrecognized_miss _ _ Hchat Hsearch Hrec) as Hmiss.
  assert (Hcall : _get_or_create_agent agent_type st =
            (Raise (HTTPException 400 ("Unknown agent type '" +:+ agent_type +:+ "'")),
             set_agent_cache (cache_of st) st)).
  { unfold _get_or_create_agent, bindM.
    rewrite get_agent_cache_eq, Hmiss.
    unfold get_agent_config. cbn [agent_config set_agent_cache]. rewrite Hconfig.
    apply String.eqb_neq in Hchat, Hsearch. rewrite Hchat, Hsearch.
    reflexivity. }
  subst st'. rewrite Hcall. cbn [fst snd]. repeat split; reflexivity.
Qed.

(** The invariant of the cache holds at start-up and every call of
    [_get_or_create_agent] keeps it, whatever the type asked for and
    whatever the constructors do. *)
Lemma lifespan_state_recognized : cache_recognized lifespan_state.
Proof.
  intros key [agent Hlook]. unfold cache_of in Hlook. cbn in Hlook.
  rewrite lookup_empty in Hlook. discriminate.
Qed.

Lemma cache_item_state (agent_type : string) (st : AppState) :
  snd (cache_item agent_type st) = st.
Proof.
  unfold cache_item. destruct (cache_of st !! agent_type); reflexivity.
Qed.

(** A call either leaves the cache as it is or adds the recognized type
    it was asked for, at the address of the new object. *)
Lemma get_or_create_cache (agent_type : string) (st : AppState) :
  let st' := snd (_get_or_create_agent agent_type st) in
  cache_of st' = cache_of st \/
  ((agent_type = "chat" \/ agent_type = "search") /\
   cache_of st' = <[agent_type := length (heap st)]> (cache_of st)).
Proof.
  unfold _get_or_create_agent, bindM. rewrite get_agent_cache_eq.
  destruct (cache_of st !! agent_type) eqn:Hlook; [left; reflexivity|].
  unfold get_agent_config; cbn [agent_config set_agent_cache].
  destruct (agent_config st) as [config|]; [|left; reflexivity].
  assert (Hcons : forall cls,
     let st' := snd (let (o, st') := construct_into_cache agent_type cls config
                        (set_agent_cache (cache_of st) st) in
                    match o with
                    | Return _ => cache_item agent_type st'
                    | Raise e => (Raise e, st')
                    end) in
     cache_of st' = cache_of st \/ 
     cache_of st' = <[agent_type := length (heap st)]> (cache_of st)).
  { intros cls. unfold construct_into_cache.
    cbn [agent_config agent_cache heap constructed executed cache_of set_agent_cache].
    destruct (cls config) as [obj|e]; [|left; reflexivity].
    rewrite cache_item_state. right. reflexivity. }
  destruct (String.eqb agent_type "search") eqn:Hs.
  { apply String.eqb_eq in Hs.
    destruct (Hcons SearchAgent) as [Hc|Hc]; [left; exact Hc | right; auto]. }
  destruct (String.eqb agent_type "chat") eqn:Hc.
  { apply String.eqb_eq in Hc.
    destruct (Hcons ChatAgent) as [Hc'|Hc']; [left; exact Hc' | right; auto]. }
  left. reflexivity.
Qed.

Lemma get_or_create_keeps_recognized (agent_type : string) (st : AppState) :
  cache_recognized st ->
  cache_recognized (snd (_get_or_create_agent agent_type st)).
Proof.
  intros Hrec key [agent Hkey].
  destruct (get_or_create_cache agent_type st) as [Heq | [Hty Heq]];
    rewrite Heq in Hkey.
  - apply Hrec. eauto.
  - destruct (decide (agent_type = key)) as [<-|Hne]; [exact Hty|].
    rewrite lookup_insert_ne in Hkey by exact Hne. apply Hrec. eauto.
Qed.

(** The three ways a call can go: a hit; an exception, which leaves cache
    and objects as they were; or the first call for a recognized type whose
    constructor returns (see [get_or_create_miss] for its result). *)
Lemma get_or_create_cases (agent_type : string) (st : AppState) :
  (exists agent,
      cache_of st !! agent_type = Some agent
      /\ _get_or_create_agent agent_type st = (Return agent, st))
  \/ (exists e st',
         _get_or_create_agent agent_type st = (Raise e, st')
         /\ cache_of st' = cache_of st /\ heap st' = heap st
         /\ agent_config st' = agent_config st)
  \/ (exists config obj,
         (agent_type = "chat" \/ agent_type = "search")
         /\ agent_config st = Some config
         /\ cache_of st !! agent_type = None
         /\ constructor_of agent_type config = Return obj).
Proof.
  destruct (cache_of st !! agent_type) as [agent|] eqn:Hlook.
  { left. exists agent. split; [reflexivity | apply get_or_create_hit, Hlook]. }
  right.
  destruct (agent_config st) as [config|] eqn:Hconfig.
  - assert (Hraise : forall cls e,
              cls config = Raise e ->
              construct_into_cache agent_type cls config (set_agent_cache (cache_of st) st)
              = (Raise e,
                 Build_AppState (agent_config st) (Some (cache_of st)) (heap st)
                   (constructed st ++ [(agent_type, config)]) (executed st))).
    { intros cls e Hcls. unfold construct_into_cache. rewrite Hcls. reflexivity. }
    destruct (String.eqb agent_type "search") eqn:Hs;
      [|destruct (String.eqb agent_type "chat") eqn:Hc].
    + apply String.eqb_eq in Hs.
      destruct (constructor_of agent_type config) as [obj|e] eqn:Hctor.
      * right. exists config, obj. auto.
      * left. unfold constructor_of in Hctor. subst agent_type. cbn in Hctor.
        eexists _, _. split; [|split; [|split]].
        -- unfold _get_or_create_agent, bindM.
           rewrite get_agent_cache_eq, Hlook.
           unfold get_agent_config. cbn [agent_config set_agent_cache]. rewrite Hconfig.
           cbn [String.eqb Ascii.eqb Bool.eqb]. rewrite (Hraise _ _ Hctor). reflexivity.
        -- reflexivity.
        -- reflexivity.
        -- exact Hconfig.
    + apply String.eqb_eq in Hc.
      destruct (constructor_of agent_type config) as [obj|e] eqn:Hctor.
      * right. exists config, obj. auto.
      * left. unfold constructor_of in Hctor. subst agent_type. cbn in Hctor.
        eexists _, _. split; [|split; [|split]].
        -- unfold _get_or_create_agent, bindM.
           rewrite get_agent_cache_eq, Hlook.
           unfold get_agent_config. cbn [agent_config set_agent_cache]. rewrite Hconfig.
           cbn [String.eqb Ascii.eqb Bool.eqb]. rewrite (Hraise _ _ Hctor). reflexivity.
        -- reflexivity.
        -- reflexivity.
        -- exact Hconfig.
    + left. eexists _, _. split; [|split; [|split]].
      * unfold _get_or_create_agent, bindM.
        rewrite get_agent_cache_eq, Hlook.
        unfold get_agent_config. cbn [agent_config set_agent_cache]. rewrite Hconfig.
        rewrite Hs, Hc. reflexivity.
      * reflexivity.
      * reflexivity.
      * exact Hconfig.
  - left. eexists _, _. split; [|split; [|split]].
    + unfold _get_or_create_agent, bindM.
      rewrite get_agent_cache_eq, Hlook.
      unfold get_agent_config. cbn [agent_config set_agent_cache]. rewrite Hconfig.
      reflexivity.
    + reflexivity.
    + reflexivity.
    + exact Hconfig.
Qed.

(** Every cached reference designates an object: so it is at start-up,
    and a call keeps it so and returns such a reference. *)
Lemma lifespan_state_in_heap : cache_in_heap lifespan_state.
Proof.
  intros key agent Hlook. unfold cache_of in Hlook. cbn in Hlook.
  rewrite lookup_empty in Hlook. discriminate.
Qed.

Lemma get_or_create_live (agent_type : string) (st st1 : AppState) (agent : nat) :
  cache_in_heap st ->
  _get_or_create_agent agent_type st = (Return agent, st1) ->
  cache_in_heap st1 /\ is_Some (heap st1 !! agent).
Proof.
  intros Hlive Hcall.
  destruct (get_or_create_cases agent_type st)
    as [(a & Hlook & Hhit)
       | [(e & st' & Hraise & _) | (config & obj & Hty & Hconfig & Hlook & Hctor)]].
  - rewrite Hhit in Hcall. injection Hcall as <- <-.
    split; [exact Hlive|]. apply lookup_lt_is_Some. eapply Hlive, Hlook.
  - rewrite Hraise in Hcall. discriminate.
  - rewrite (get_or_create_miss _ _ _ _ Hty Hconfig Hlook Hctor) in Hcall.
    injection Hcall as <- <-. split.
    + intros key a. unfold cache_of at 1. cbn [agent_cache heap].
      rewrite length_app. cbn [length].
      destruct (decide (agent_type = key)) as [<-|Hne].
      * rewrite lookup_insert_eq. intros [= <-]. lia.
      * rewrite lookup_insert_ne by exact Hne. intros Ha.
        pose proof (Hlive _ _ Ha). lia.
    + cbn [heap]. apply lookup_lt_is_Some. rewrite length_app. cbn [length]. lia.
Qed.

Lemma get_or_create_ready (agent_type : string) :
  preserves ready (_get_or_create_agent agent_type).
Proof.
  intros st (Hconfig & Hrec & Hlive).
  split; [|split]; [| apply get_or_create_keeps_recognized, Hrec |].
  - destruct (get_or_create_cases agent_type st)
      as [(a & _ & Hhit)
         | [(e & st' & Hraise & _ & _ & Hsame)
           | (config & obj & Hty & Hc & Hlook & Hctor)]].
    + rewrite Hhit. exact Hconfig.
    + rewrite Hraise. cbn [snd]. rewrite Hsame. exact Hconfig.
    + rewrite (get_or_create_miss _ _ _ _ Hty Hc Hlook Hctor). cbn. eauto.
  - destruct (_get_or_create_agent agent_type st) as [[agent|e] st1] eqn:Hcall.
    + apply (get_or_create_live _ _ _ _ Hlive Hcall).
    + destruct (get_or_create_cases agent_type st)
        as [(a & _ & Hhit)
           | [(e' & st' & Hraise & Hcache & Hheap & _)
             | (config & obj & Hty & Hc & Hlook & Hctor)]].
      * rewrite Hhit in Hcall. discriminate.
      * rewrite Hraise in Hcall. injection Hcall as <- <-. cbn [snd].
        intros key agent. rewrite Hcache, Hheap. apply Hlive.
      * rewrite (get_or_create_miss _ _ _ _ Hty Hc Hlook Hctor) in Hcall. discriminate.
Qed.

End RegistryFacts.

(** ** The chat and search handlers *)

Section HandlerFacts.
Context `{AgentImpl}.

Lemma agent_execute_eq (agent : nat) (prompt : string) (use_tools : option bool)
    (st : AppState) (obj obj' : Agent) (result : outcome AgentResult.t) :
  heap st !! agent = Some obj ->
  execute obj prompt use_tools = (result, obj') ->
  agent_execute agent prompt use_tools st =
    (result,
     Build_AppState (agent_config st) (agent_cache st) (<[agent := obj']> (heap st))
       (constructed st) (executed st ++ [(agent, prompt, use_tools)])).
Proof.
  intros Hobj Hexec. unfold agent_execute. rewrite Hobj, Hexec. reflexivity.
Qed.

(** [execute] changes one object in place: the cache and the number of
    objects stay, and with them the invariants of the registry. *)
Lemma agent_execute_keeps (agent : nat) (prompt : string) (use_tools : option bool)
    (st : AppState) :
  let st' := snd (agent_execute agent prompt use_tools st) in
  cache_of st' = cache_of st
  /\ length (heap st') = length (heap st)
  /\ constructed st' = constructed st
  /\ agent_config st' = agent_config st.
Proof.
  unfold agent_execute. destruct (heap st !! agent) as [obj|]; [|repeat split].
  destruct (execute obj prompt use_tools) as [result obj'].
  cbn. rewrite length_insert. repeat split.
Qed.

(** [result.metadata or {}] is the metadata itself. *)
Lemma metadata_or_empty (metadata : list (string * value)) :
  (if truthy (VDict metadata) then metadata else []) = metadata.
Proof. destruct metadata; reflexivity. Qed.

Lemma sources_count_of_eq (metadata : list (string * value)) :
  sources_count_of metadata = int_ (or_ (winning_value metadata) (VInt 0)).
Proof.
  unfold sources_count_of, winning_value, get, bind.
  destruct (dict_lookup "tool_run_count" metadata); reflexivity.
Qed.

Lemma int_not_HTTPException (v : value) (e : exn) :
  int_ v = Raise e -> is_HTTPException e = false.
Proof.
  unfold int_. intros Hint.
  destruct v as [ | b | n | f | s | l | d ]; try discriminate;
    try (injection Hint as <-; reflexivity).
  - destruct f; try discriminate; injection Hint as <-; reflexivity.
  - destruct (int_of_string s); try discriminate; injection Hint as <-; reflexivity.
Qed.

Lemma int_raises_Exception (v : value) (e : exn) :
  int_ v = Raise e -> is_Exception e = true.
Proof.
  unfold int_. intros Hint.
  destruct v as [ | b | n | f | s | l | d ]; try discriminate;
    try (injection Hint as <-; reflexivity).
  - destruct f; try discriminate; injection Hint as <-; reflexivity.
  - destruct (int_of_string s); try discriminate; injection Hint as <-; reflexivity.
Qed.

(** What the search handler answers once the search agent is resolved and
    [execute] has returned a result. *)
Lemma search_after_execute (search_request : SearchRequest.t) (st st1 : AppState)
    (agent : nat) (obj obj' : Agent) (r : AgentResult.t) :
  _get_or_create_agent "search" st = (Return agent, st1) ->
  heap st1 !! agent = Some obj ->
  execute obj (search_prompt (SearchRequest.query search_request)) (Some true)
    = (Return r, obj') ->
  fst (search_and_summarize search_request st) =
    if AgentResult.success r then
      match int_ (or_ (winning_value (AgentResult.metadata r)) (VInt 0)) with
      | Return n =>
          Return {| SearchResponse.success := true;
                    SearchResponse.query := SearchRequest.query search_request;
                    SearchResponse.summary := AgentResult.content r;
                    SearchResponse.search_results := Some (AgentResult.metadata r);
                    SearchResponse.sources_count := n;
                    SearchResponse.error := None |}
      | Raise e =>
          Return {| SearchResponse.success := false;
                    SearchResponse.query := SearchRequest.query search_request;
                    SearchResponse.summary := "";
                    SearchResponse.search_results := None;
                    SearchResponse.sources_count := 0;
                    SearchResponse.error := Some (str_exn e) |}
      end
    else
      Return {| SearchResponse.success := false;
                SearchResponse.query := SearchRequest.query search_request;
                SearchResponse.summary := "";
                SearchResponse.search_results := None;
                SearchResponse.sources_count := 0;
                SearchResponse.error := AgentResult.error r |}.
Proof.
  intros Hget Hobj Hexec.
  unfold search_and_summarize, try_except, bindM.
  rewrite Hget, (agent_execute_eq _ _ _ _ _ _ _ Hobj Hexec).
  destruct (AgentResult.success r); [|reflexivity].
  rewrite metadata_or_empty. unfold lift. rewrite sources_count_of_eq.
  destruct (int_ (or_ (winning_value (AgentResult.metadata r)) (VInt 0)))
    as [n|e] eqn:Hint; [reflexivity|].
  rewrite (int_not_HTTPException _ _ Hint), (int_raises_Exception _ _ Hint).
  reflexivity.
Qed.

(** What the chat handler answers once the agent is resolved and
    [execute] has returned or raised. *)
Lemma chat_after_execute (chat_request : ChatRequest.t) (st st1 : AppState)
    (agent : nat) (obj obj' : Agent) (result : outcome AgentResult.t) :
  _get_or_create_agent (ChatRequest.agent_type chat_request) st = (Return agent, st1) ->
  heap st1 !! agent = Some obj ->
  execute obj (ChatRequest.message chat_request) None = (result, obj') ->
  let fault exc :=
    if is_HTTPException exc then Raise exc
    else if is_Exception exc then
      Return {| ChatResponse.success := false;
                ChatResponse.response := "";
                ChatResponse.agent_type := ChatRequest.agent_type chat_request;
                ChatResponse.capabilities := [];
                ChatResponse.metadata := [];
                ChatResponse.error := Some (str_exn exc) |}
    else Raise exc in
  fst (chat_with_agent chat_request st) =
    match result with
    | Raise exc => fault exc
    | Return response =>
        match get_capabilities obj' with
        | Raise exc => fault exc
        | Return capabilities =>
            Return {| ChatResponse.success := AgentResult.success response;
                      ChatResponse.response := AgentResult.content response;
                      ChatResponse.agent_type := ChatRequest.agent_type chat_request;
                      ChatResponse.capabilities := capabilities;
                      ChatResponse.metadata := AgentResult.metadata response;
                      ChatResponse.error := AgentResult.error response |}
        end
    end.
Proof.
  intros Hget Hobj Hexec fault.
  unfold chat_with_agent, try_except, bindM.
  rewrite Hget, (agent_execute_eq _ _ _ _ _ _ _ Hobj Hexec).
  destruct result as [response|exc].
  - unfold agent_get_capabilities. cbn [heap].
    rewrite list_lookup_insert_eq by (eapply lookup_lt_Some; exact Hobj).
    destruct (get_capabilities obj') as [capabilities|exc]; [reflexivity|].
    subst fault. cbn beta.
    destruct (is_HTTPException exc), (is_Exception exc); reflexivity.
  - subst fault. cbn beta.
    destruct (is_HTTPException exc), (is_Exception exc); reflexivity.
Qed.

(** The invariant through the handlers. *)
Lemma preserves_ret (P : AppState -> Prop) {A : Type} (a : A) : preserves P (ret a).
Proof. intros st Hst. exact Hst. Qed.

Lemma preserves_raise (P : AppState -> Prop) {A : Type} (e : exn) :
  preserves P (raise (A := A) e).
Proof. intros st Hst. exact Hst. Qed.

Lemma preserves_lift (P : AppState -> Prop) {A : Type} (o : outcome A) :
  preserves P (lift o).
Proof. intros st Hst. exact Hst. Qed.

Lemma preserves_bind (P : AppState -> Prop) {A B : Type} (m : M A) (k : A -> M B) :
  preserves P m -> (forall a, preserves P (k a)) -> preserves P (bindM m k).
Proof.
  intros Hm Hk st Hst. unfold bindM. specialize (Hm st Hst).
  destruct (m st) as [[a|e] st1]; cbn [snd] in Hm |- *; [apply Hk, Hm | exact Hm].
Qed.

Lemma preserves_try (P : AppState -> Prop) {A : Type} (body : M A) (handler : exn -> M A) :
  preserves P body -> (forall e, preserves P (handler e)) ->
  preserves P (try_except body handler).
Proof.
  intros Hbody Hhandler st Hst. unfold try_except. specialize (Hbody st Hst).
  destruct (body st) as [[a|e] st1]; cbn [snd] in Hbody |- *;
    [exact Hbody | apply Hhandler, Hbody].
Qed.

Lemma agent_execute_ready (agent : nat) (prompt : string) (use_tools : option bool) :
  preserves ready (agent_execute agent prompt use_tools).
Proof.
  intros st (Hconfig & Hrec & Hlive).
  destruct (agent_execute_keeps agent prompt use_tools st) as (Hcache & Hlen & _ & Hcfg).
  unfold ready, cache_recognized, cache_in_heap. rewrite Hcache, Hlen, Hcfg. auto.
Qed.

Lemma agent_get_capabilities_ready (agent : nat) :
  preserves ready (agent_get_capabilities agent).
Proof.
  intros st Hst. unfold agent_get_capabilities.
  destruct (heap st !! agent); exact Hst.
Qed.

Lemma chat_with_agent_ready (chat_request : ChatRequest.t) :
  preserves ready (chat_with_agent chat_request).
Proof.
  unfold chat_with_agent. apply preserves_try.
  - apply preserves_bind; [apply get_or_create_ready|]. intros agent.
    apply preserves_bind; [apply agent_execute_ready|]. intros response.
    apply preserves_bind; [apply agent_get_capabilities_ready|]. intros capabilities.
    apply preserves_ret.
  - intros exc. destruct (is_HTTPException exc); [apply preserves_raise|].
    destruct (is_Exception exc); [apply preserves_ret | apply preserves_raise].
Qed.

Lemma search_and_summarize_ready (search_request : SearchRequest.t) :
  preserves ready (search_and_summarize search_request).
Proof.
  unfold search_and_summarize. apply preserves_try.
  - apply preserves_bind; [apply get_or_create_ready|]. intros agent.
    apply preserves_bind; [apply agent_execute_ready|]. intros result.
    destruct (AgentResult.success result); [|apply preserves_ret].
    apply preserves_bind; [apply preserves_lift|]. intros n. apply preserves_ret.
  - intros exc. destruct (is_HTTPException exc); [apply preserves_raise|].
    destruct (is_Exception exc); [apply preserves_ret | apply preserves_raise].
Qed.

Lemma get_agent_capabilities_ready : preserves ready get_agent_capabilities.
Proof.
  unfold get_agent_capabilities. apply preserves_try.
  - apply preserves_bind; [apply get_or_create_ready|]. intros search_agent.
    apply preserves_bind; [apply get_or_create_ready|]. intros chat_agent.
    apply preserves_bind; [apply agent_get_capabilities_ready|]. intros c1.
    apply preserves_bind; [apply agent_get_capabilities_ready|]. intros c2.
    apply preserves_ret.
  - intros exc. destruct (is_HTTPException exc); [apply preserves_raise|].
    destruct (is_Exception exc); [apply preserves_ret | apply preserves_raise].
Qed.

(** Every state the server goes through has its configuration set, only
    recognized types in its cache, and only live references in it. *)
Lemma reachable_ready (st : AppState) : reachable st -> ready st.
Proof.
  induction 1 as [ | chat_request st _ IH | search_request st _ IH | st _ IH ].
  - split; [eexists; reflexivity|].
    split; [apply lifespan_state_recognized | apply lifespan_state_in_heap].
  - apply chat_with_agent_ready, IH.
  - apply search_and_summarize_ready, IH.
  - apply get_agent_capabilities_ready, IH.
Qed.

(** C4, as amended. When [execute] raises in the chat handler an exception
    that derives from [Exception] and is not an [HTTPException], the
    handler returns a [ChatResponse] with [success = False], an empty
    response, no capabilities and the text of the exception as error.  (An
    exception that does not derive from [Exception], such as the
    [CancelledError] of a cancelled request, is not a fault of the agent
    and passes through.) *)
Theorem chat_fault_contained (chat_request : ChatRequest.t) (st st1 : AppState)
    (agent : nat) (obj obj' : Agent) (exc : exn) :
  _get_or_create_agent (ChatRequest.agent_type chat_request) st = (Return agent, st1) ->
  heap st1 !! agent = Some obj ->
  execute obj (ChatRequest.message chat_request) None = (Raise exc, obj') ->
  is_HTTPException exc = false ->
  fst (chat_with_agent chat_request st) =
    if is_Exception exc then
      Return {| ChatResponse.success := false;
                ChatResponse.response := "";
                ChatResponse.agent_type := ChatRequest.agent_type chat_request;
                ChatResponse.capabilities := [];
                ChatResponse.metadata := [];
                ChatResponse.error := Some (str_exn exc) |}
    else Raise exc.
Proof.
  intros Hget Hobj Hexec Hexc.
  rewrite (chat_after_execute _ _ _ _ _ _ _ Hget Hobj Hexec).
  cbn beta zeta. rewrite Hexc. reflexivity.
Qed.


(** C3, as amended. On a structured success the search handler takes the
    value under ["tool_run_count"], else the one under ["tools_used"],
    else [0], replaces a false value by [0] and applies [int]: when [int]
    returns [n] the answer has [success = True] and [sources_count = n]
    (an integer value is kept as it is, negative or not); when [int]
    raises, the answer is the fault response, with [success = False],
    [sources_count = 0] and the text of the exception as error. *)
Theorem sources_count_first_present (search_request : SearchRequest.t)
    (st st1 : AppState) (agent : nat) (obj obj' : Agent) (r : AgentResult.t) :
  _get_or_create_agent "search" st = (Return agent, st1) ->
  heap st1 !! agent = Some obj ->
  execute obj (search_prompt (SearchRequest.query search_request)) (Some true)
    = (Return r, obj') ->
  AgentResult.success r = true ->
  let answer := fst (search_and_summarize search_request st) in
  let counted n :=
    Return {| SearchResponse.success := true;
              SearchResponse.query := SearchRequest.query search_request;
              SearchResponse.summary := AgentResult.content r;
              SearchResponse.search_results := Some (AgentResult.metadata r);
              SearchResponse.sources_count := n;
              SearchResponse.error := None |} in
  match int_ (or_ (winning_value (AgentResult.metadata r)) (VInt 0)) with
  | Return n => answer = counted n
  | Raise e =>
      answer = Return {| SearchResponse.success := false;
                         SearchResponse.query := SearchRequest.query search_request;
                         SearchResponse.summary := "";
                         SearchResponse.search_results := None;
                         SearchResponse.sources_count := 0;
                         SearchResponse.error := Some (str_exn e) |}
  end
  /\ (forall n, winning_value (AgentResult.metadata r) = VInt n -> answer = counted n).
Proof.
  intros Hget Hobj Hexec Hok answer counted.
  assert (Hanswer := search_after_execute search_request _ _ _ _ _ _ Hget Hobj Hexec).
  rewrite Hok in Hanswer. fold answer in Hanswer.
  split.
  - destruct (int_ (or_ (winning_value (AgentResult.metadata r)) (VInt 0)));
      exact Hanswer.
  - intros n Hn. rewrite Hn in Hanswer.
    unfold or_, truthy in Hanswer.
    destruct (n =? 0) eqn:Hzero; cbn [negb int_] in Hanswer; [|exact Hanswer].
    apply Z.eqb_eq in Hzero. rewrite Hzero. exact Hanswer.
Qed.

(** C9. Two search requests with the same query get the same treatment
    whatever their [max_results]: the same answer and the same state
    afterwards, hence the same recorded calls of [execute], prompt
    included. *)
Theorem max_results_noninterference (r1 r2 : SearchRequest.t) (st : AppState) :
  SearchRequest.query r1 = SearchRequest.query r2 ->
  search_and_summarize r1 st = search_and_summarize r2 st
  /\ executed (snd (search_and_summarize r1 st))
     = executed (snd (search_and_summarize r2 st)).
Proof.
  intros Hquery.
  assert (Hsame : search_and_summarize r1 st = search_and_summarize r2 st).
  { unfold search_and_summarize. rewrite Hquery. reflexivity. }
  split; [exact Hsame | rewrite Hsame; reflexivity].
Qed.

End HandlerFacts.

(** ** The vault listing *)

Section VaultFacts.

Lemma bind_Return_inv {A B : Type} (m : outcome A) (k : A -> outcome B) (b : B) :
  bind m k = Return b -> exists a, m = Return a /\ k a = Return b.
Proof.
  destruct m as [a|e]; cbn; [eauto | discriminate].
Qed.

Ltac invert_bind H :=
  let x := fresh "x" in
  let Hx := fresh "Hx" in
  apply bind_Return_inv in H; destruct H as (x & Hx & H); cbv beta in H.

Lemma new_Return_inv (address name symbol expiry : value) (chain_id : Z)
    (f1 f2 f3 f4 f5 f6 f7 : float) (vault : VaultData.t) :
  VaultData.new address name symbol expiry chain_id f1 f2 f3 f4 f5 f6 f7 = Return vault ->
  VaultData.chain_id vault = chain_id
  /\ VaultData.volume_24h vault = f1 /\ VaultData.liquidity vault = f2
  /\ VaultData.implied_apy vault = f3 /\ VaultData.underlying_apy vault = f4
  /\ VaultData.lp_apy vault = f5 /\ VaultData.pt_price vault = f6
  /\ VaultData.yt_price vault = f7.
Proof.
  unfold VaultData.new. intros Hnew.
  destruct address, name, symbol, expiry; try discriminate.
  injection Hnew as <-. cbn. repeat split.
Qed.

(** A market entry that coerces: its [details] could be read, each metric
    is [float] of what [details.get] gave for its key, and [chain_id] is
    the one of the request. *)
Lemma coerce_market_inv (chain_id : Z) (market : value) (vault : VaultData.t) :
  coerce_market chain_id market = Return vault ->
  exists details,
    get market "details" (VDict []) = Return details
    /\ Forall (fun kf => bind (get details (fst kf) (VInt 0)) float_ = Return (snd kf vault))
         numeric_fields
    /\ VaultData.chain_id vault = chain_id.
Proof.
  unfold coerce_market. intros Hc.
  invert_bind Hc. rename x into details, Hx into Hdetails.
  do 4 invert_bind Hc.
  do 7 invert_bind Hc.
  apply new_Return_inv in Hc.
  destruct Hc as (Hid & H1 & H2 & H3 & H4 & H5 & H6 & H7).
  exists details. split; [exact Hdetails|]. split; [|exact Hid].
  unfold numeric_fields. repeat constructor; cbn [fst snd]; congruence.
Qed.


Lemma bind_Raise_inv {A B : Type} (m : outcome A) (k : A -> outcome B) (e : exn) :
  bind m k = Raise e -> m = Raise e \/ exists a, m = Return a /\ k a = Raise e.
Proof.
  destruct m as [a|e0]; cbn; [eauto | intros [= <-]; left; reflexivity].
Qed.

(** What the builtins of the coercion raise. *)
Lemma get_raises (obj : value) (key : string) (default : value) (e : exn) :
  get obj key default = Raise e ->
  record_level e = true /\ is_ValueError_TypeError_KeyError e = false.
Proof.
  unfold get. destruct obj; intros [= <-]; split; reflexivity.
Qed.

Lemma float_raises (v : value) (e : exn) :
  float_ v = Raise e ->
  if overflows v then e = overflow_error
  else is_ValueError_TypeError_KeyError e = true.
Proof.
  unfold float_, overflows. intros Hf.
  destruct v as [ | b | n | f | s | l | d ]; try discriminate;
    try (injection Hf as <-; reflexivity).
  - destruct (binary_normalize prec emax n 0 false); try discriminate.
    injection Hf as <-. reflexivity.
  - destruct (float_of_string s); [discriminate|]. injection Hf as <-. reflexivity.
Qed.

Lemma float_raises_record_level (v : value) (e : exn) :
  float_ v = Raise e -> record_level e = true.
Proof.
  intros Hf. apply float_raises in Hf. destruct (overflows v).
  - subst e. reflexivity.
  - destruct e as [status detail|cls msg]; [discriminate|].
    destruct cls; try discriminate; reflexivity.
Qed.

Lemma new_raises (address name symbol expiry : value) (chain_id : Z)
    (f1 f2 f3 f4 f5 f6 f7 : float) (e : exn) :
  VaultData.new address name symbol expiry chain_id f1 f2 f3 f4 f5 f6 f7 = Raise e ->
  is_ValueError_TypeError_KeyError e = true /\ record_level e = true.
Proof.
  unfold VaultData.new, VaultData.validation_error. intros Hnew.
  destruct address, name, symbol, expiry; try discriminate;
    injection Hnew as <-; split; reflexivity.
Qed.


(** Whatever the entry, its coercion raises only exceptions that derive
    from [Exception] and are no transport fault. *)
Lemma coerce_market_raises (chain_id : Z) (market : value) (e : exn) :
  coerce_market chain_id market = Raise e -> record_level e = true.
Proof.
  unfold coerce_market. intros Hc.
  repeat match type of Hc with
         | bind _ _ = Raise _ =>
             apply bind_Raise_inv in Hc; destruct Hc as [Hc | (? & _ & Hc)]
         end;
    first [ apply get_raises in Hc; tauto
          | apply float_raises_record_level in Hc; exact Hc
          | apply new_raises in Hc; tauto ].
Qed.




Lemma collect_vaults_raises (chain_id : Z) (markets : list value) :
  forall acc e,
    collect_vaults chain_id markets acc = Raise e -> record_level e = true.
Proof.
  induction markets as [|market markets IH]; intros acc e; cbn; [discriminate|].
  destruct (coerce_market chain_id market) as [vault|e'] eqn:Hc; [apply IH|].
  destruct (is_ValueError_TypeError_KeyError e'); [apply IH|].
  intros [= <-]. exact (coerce_market_raises _ _ _ Hc).
Qed.

(** When every failing entry fails with an exception the loop handles,
    the loop returns the survivors, appended to what it had. *)
Lemma collect_vaults_survivors (chain_id : Z) (markets : list value) :
  Forall (fun market =>
            match coerce_market chain_id market with
            | Return _ => True
            | Raise e => is_ValueError_TypeError_KeyError e = true
            end) markets ->
  forall acc,
    collect_vaults chain_id markets acc = Return (acc ++ survivors chain_id markets).
Proof.
  unfold survivors. induction 1 as [|market markets Hm _ IH]; intros acc; cbn.
  - rewrite app_nil_r. reflexivity.
  - destruct (coerce_market chain_id market) as [vault|e].
    + rewrite IH, <- app_assoc. reflexivity.
    + rewrite Hm. apply IH.
Qed.

Lemma survivors_length (chain_id : Z) (markets : list value) :
  length (survivors chain_id markets) = length (List.filter (coerces chain_id) markets).
Proof.
  unfold survivors, coerces. induction markets as [|market markets IH]; cbn; [reflexivity|].
  destruct (coerce_market chain_id market); cbn; congruence.
Qed.

Lemma collect_vaults_chain_id (chain_id : Z) (markets : list value) :
  forall acc vaults,
    Forall (fun vault => VaultData.chain_id vault = chain_id) acc ->
    collect_vaults chain_id markets acc = Return vaults ->
    Forall (fun vault => VaultData.chain_id vault = chain_id) vaults.
Proof.
  induction markets as [|market markets IH]; intros acc vaults Hacc; cbn.
  - intros [= <-]. exact Hacc.
  - destruct (coerce_market chain_id market) as [vault|e] eqn:Hc.
    + apply IH. apply Forall_app. split; [exact Hacc|].
      constructor; [|constructor].
      destruct (coerce_market_inv _ _ _ Hc) as (_ & _ & _ & Hid). exact Hid.
    + destruct (is_ValueError_TypeError_KeyError e); [apply IH, Hacc | discriminate].
Qed.

(** An exception of the body of the listing is one of its own code, which
    derives from [Exception], or comes from the request. *)
Lemma fetch_vaults_raises (client_get : string -> outcome Response.t) (chain_id : Z)
    (exc : exn) :
  fetch_vaults client_get chain_id = Raise exc ->
  is_Exception exc = true
  \/ raised_by_request (client_get (pendle_api_url chain_id)) exc.
Proof.
  unfold fetch_vaults, raised_by_request. intros Hf.
  destruct (client_get (pendle_api_url chain_id)) as [response|e0]; cbn [bind] in Hf;
    [|right; left; congruence].
  destruct (Response.raise_for_status response) as [[]|e1] eqn:Hstatus; cbn [bind] in Hf.
  - destruct (Response.json response) as [data|e2] eqn:Hjson; cbn [bind] in Hf;
      [|right; right; exists response; repeat split; congruence].
    left.
    apply bind_Raise_inv in Hf. destruct Hf as [Hf | (markets & _ & Hf)].
    { apply get_raises in Hf. destruct Hf as [Hf _].
      apply andb_true_iff in Hf. tauto. }
    apply bind_Raise_inv in Hf. destruct Hf as [Hf | (entries & _ & Hf)].
    { unfold iter in Hf. destruct markets; try discriminate;
        injection Hf as <-; reflexivity. }
    apply bind_Raise_inv in Hf. destruct Hf as [Hf | (vaults & _ & Hf)]; [|discriminate].
    apply collect_vaults_raises in Hf. apply andb_true_iff in Hf. tauto.
  - left. unfold Response.raise_for_status in Hstatus.
    destruct ((200 <=? Response.status_code response)
              && (Response.status_code response <=? 299)); [discriminate|].
    injection Hstatus as <-. injection Hf as <-. reflexivity.
Qed.

(** An exception leaves the listing only if it does not derive from
    [Exception], and then it comes from the request. *)
Lemma get_pendle_vaults_raises (client_get : string -> outcome Response.t) (chain_id : Z)
    (exc : exn) :
  get_pendle_vaults client_get chain_id = Raise exc ->
  is_Exception exc = false
  /\ raised_by_request (client_get (pendle_api_url chain_id)) exc.
Proof.
  unfold get_pendle_vaults.
  destruct (fetch_vaults client_get chain_id) as [r|e] eqn:Hfetch; [discriminate|].
  destruct (is_HTTPError e); [discriminate|].
  destruct (is_Exception e) eqn:He; [discriminate|].
  intros [= <-]. split; [exact He|].
  destruct (fetch_vaults_raises _ _ _ Hfetch) as [Hexc|Hreq]; [congruence | exact Hreq].
Qed.


(** C2, as amended. When the provider answers with a 2xx status and a
    JSON object whose ["markets"] is a list in which every entry either
    coerces or fails with a [ValueError], a [TypeError] or a [KeyError]
    (pydantic's [ValidationError] is a [ValueError]), the listing returns
    [success = True], the surviving records in input order and nothing
    else, and [total] is their number. *)
Theorem vaults_partial_tolerance (client_get : string -> outcome Response.t)
    (chain_id : Z) (response : Response.t) (payload : list (string * value))
    (markets : list value) :
  client_get (pendle_api_url chain_id) = Return response ->
  Response.raise_for_status response = Return tt ->
  Response.json response = Return (VDict payload) ->
  dict_lookup "markets" payload = Some (VList markets) ->
  Forall (fun market =>
            match coerce_market chain_id market with
            | Return _ => True
            | Raise e => is_ValueError_TypeError_KeyError e = true
            end) markets ->
  get_pendle_vaults client_get chain_id =
    Return {| VaultsResponse.success := true;
              VaultsResponse.vaults := survivors chain_id markets;
              VaultsResponse.total :=
                Z.of_nat (length (List.filter (coerces chain_id) markets));
              VaultsResponse.error := None |}.
Proof.
  intros Hget Hstatus Hjson Hmarkets Hall.
  unfold get_pendle_vaults, fetch_vaults.
  rewrite Hget. cbn [bind]. rewrite Hstatus. cbn [bind]. rewrite Hjson. cbn [bind get].
  rewrite Hmarkets. cbn [bind iter].
  rewrite (collect_vaults_survivors _ _ Hall []). cbn [bind app].
  rewrite survivors_length. reflexivity.
Qed.




(** C10. Every record the listing returns carries the [chain_id] of the
    request, whatever the provider sent; and the listing does return a
    response, unless the request itself is interrupted by an exception
    that does not derive from [Exception] (a cancellation), which no
    record can cause. *)
Theorem vaults_chain_id (client_get : string -> outcome Response.t) (chain_id : Z) :
  match get_pendle_vaults client_get chain_id with
  | Return r =>
      Forall (fun vault => VaultData.chain_id vault = chain_id) (VaultsResponse.vaults r)
  | Raise exc =>
      is_Exception exc = false
      /\ raised_by_request (client_get (pendle_api_url chain_id)) exc
  end.
Proof.
  destruct (get_pendle_vaults client_get chain_id) as [r|exc] eqn:Hlist;
    [|exact (get_pendle_vaults_raises _ _ _ Hlist)].
  unfold get_pendle_vaults in Hlist.
  destruct (fetch_vaults client_get chain_id) as [r'|e] eqn:Hfetch.
  - injection Hlist as <-.
    unfold fetch_vaults in Hfetch.
    do 5 invert_bind Hfetch.
    invert_bind Hfetch. injection Hfetch as <-. cbn.
    eapply collect_vaults_chain_id; [constructor | eassumption].
  - destruct (is_HTTPError e); [injection Hlist as <-; constructor|].
    destruct (is_Exception e); [injection Hlist as <-; constructor | discriminate].
Qed.

End VaultFacts.

(** ** The statements at concrete inputs *)

Section HelloExamples.
#[local] Existing Instance hello_agents.

Lemma get_or_create_idempotent_witness :
  cache_of lifespan_state !! "chat" = None
  /\ get_or_create_repeatedly 3 "chat" lifespan_state
     = ([Return 0%nat; Return 0%nat; Return 0%nat],
        snd (_get_or_create_agent "chat" lifespan_state))
  /\ constructed (snd (_get_or_create_agent "chat" lifespan_state))
     = [("chat", default_config)].
Proof.
  edestruct (get_or_create_idempotent "chat" 2 lifespan_state)
    as (Hcalls & Hctor & _); [left; reflexivity | reflexivity..|].
  split; [reflexivity|]. split; [exact Hcalls | exact Hctor].
Defined.

Lemma unknown_agent_type_rejected_witness :
  fst (_get_or_create_agent "bogus" lifespan_state)
    = Raise (HTTPException 400 "Unknown agent type 'bogus'")
  /\ cache_of (snd (_get_or_create_agent "bogus" lifespan_state)) = cache_of lifespan_state.
Proof.
  edestruct (unknown_agent_type_rejected "bogus" lifespan_state)
    as (Hraise & Hcache & _);
    [discriminate | discriminate | reflexivity | apply lifespan_state_recognized |].
  split; [exact Hraise | exact Hcache].
Defined.

(** Scenario 6 of the specification: the stub chat agent answers
    ["hello"]. *)
Example chat_hello :
  fst (chat_with_agent hi_request lifespan_state)
  = Return {| ChatResponse.success := true;
              ChatResponse.response := "hello";
              ChatResponse.agent_type := "chat";
              ChatResponse.capabilities := ["chat"];
              ChatResponse.metadata := [];
              ChatResponse.error := None |}.
Proof. reflexivity. Qed.

Lemma max_results_noninterference_witness :
  search_and_summarize (pendle_search 5) lifespan_state
  = search_and_summarize (pendle_search 50) lifespan_state.
Proof.
  apply (max_results_noninterference (pendle_search 5) (pendle_search 50) lifespan_state).
  reflexivity.
Defined.

End HelloExamples.

Section FaultExamples.

(** [execute] raises a [RuntimeError]: the chat handler answers. *)
Lemma chat_fault_contained_witness :
  fst (chat_with_agent (H := boom_agents) hi_request lifespan_state)
  = Return {| ChatResponse.success := false;
              ChatResponse.response := "";
              ChatResponse.agent_type := "chat";
              ChatResponse.capabilities := [];
              ChatResponse.metadata := [];
              ChatResponse.error := Some "boom" |}.
Proof.
  eapply (chat_fault_contained (H := boom_agents) hi_request lifespan_state
            _ 0%nat _ _ boom);
    reflexivity.
Defined.

(** [execute] raises an [HTTPException] that is not the one of an unknown
    agent type: the chat handler lets it through. *)
Lemma chat_fault_contained_counterexample :
  fst (chat_with_agent (H := unavailable_agents) hi_request lifespan_state)
  = Raise (HTTPException 503 "upstream unavailable").
Proof. reflexivity. Qed.

(** The request is cancelled while [execute] is awaited: the
    [CancelledError] goes through the chat and search handlers. *)
Example chat_cancelled :
  fst (chat_with_agent (H := cancelled_agents) hi_request lifespan_state) = Raise cancelled
  /\ fst (search_and_summarize (H := cancelled_agents) (pendle_search 5) lifespan_state)
     = Raise cancelled.
Proof. split; reflexivity. Qed.



End FaultExamples.

Section SourcesCountExamples.

(** A negative counter is reported as it is, and a counter that is not a
    number makes the handler answer with [success = False]. *)
Lemma sources_count_counterexample :
  fst (search_and_summarize (H := negative_count_agents) (pendle_search 5) lifespan_state)
  = Return {| SearchResponse.success := true;
              SearchResponse.query := "pendle";
              SearchResponse.summary := "summary";
              SearchResponse.search_results :=
                Some [("tool_run_count", VInt (-3)); ("tools_used", VInt 7)];
              SearchResponse.sources_count := -3;
              SearchResponse.error := None |}
  /\ fst (search_and_summarize (H := text_count_agents) (pendle_search 5) lifespan_state)
     = Return {| SearchResponse.success := false;
                 SearchResponse.query := "pendle";
                 SearchResponse.summary := "";
                 SearchResponse.search_results := None;
                 SearchResponse.sources_count := 0;
                 SearchResponse.error :=
                   Some "invalid literal for int() with base 10: 'many'" |}.
Proof. split; reflexivity. Qed.

Lemma sources_count_first_present_witness :
  fst (search_and_summarize (H := negative_count_agents) (pendle_search 5) lifespan_state)
  = Return {| SearchResponse.success := true;
              SearchResponse.query := "pendle";
              SearchResponse.summary := "summary";
              SearchResponse.search_results :=
                Some [("tool_run_count", VInt (-3)); ("tools_used", VInt 7)];
              SearchResponse.sources_count := -3;
              SearchResponse.error := None |}.
Proof.
  edestruct (sources_count_first_present (H := negative_count_agents)
               (pendle_search 5) lifespan_state) as [_ Hint]; [reflexivity..|].
  apply (Hint (-3)). reflexivity.
Defined.

End SourcesCountExamples.

Section VaultExamples.

(** Scenario 8 of the specification: two entries, one with a liquidity
    that is not a number; the answer holds the other one. *)
Lemma vaults_partial_tolerance_witness :
  get_pendle_vaults (provider_ok (markets_payload [good_market; bad_liquidity_market])) 1
  = Return {| VaultsResponse.success := true;
              VaultsResponse.vaults := [good_vault 1];
              VaultsResponse.total := 1;
              VaultsResponse.error := None |}.
Proof.
  apply (vaults_partial_tolerance
           (provider_ok (markets_payload [good_market; bad_liquidity_market])) 1
           _ _ [good_market; bad_liquidity_market] eq_refl eq_refl eq_refl eq_refl).
  repeat constructor.
Defined.

(** One entry coerces and the coercion of the other throws (its
    [details] is [null]): the listing is not the surviving record with
    [success = True] and [total = 1], it is the failure response. *)
Lemma vaults_partial_tolerance_counterexample :
  coerce_market 1 good_market = Return (good_vault 1)
  /\ coerce_market 1 null_details_market
     = Raise (Exc AttributeError "'NoneType' object has no attribute 'get'")
  /\ get_pendle_vaults (provider_ok (markets_payload [good_market; null_details_market])) 1
     = Return {| VaultsResponse.success := false;
                 VaultsResponse.vaults := [];
                 VaultsResponse.total := 0;
                 VaultsResponse.error := Some "'NoneType' object has no attribute 'get'" |}.
Proof. repeat split. Qed.





End VaultExamples.

(** ** Further properties of the registry *)

Section RegistryMore.
Context `{AgentImpl}.

(** A call never touches the record of [execute] calls. *)
Lemma get_or_create_executed (agent_type : string) (st : AppState) :
  executed (snd (_get_or_create_agent agent_type st)) = executed st.
Proof.
  unfold _get_or_create_agent, bindM. rewrite get_agent_cache_eq.
  destruct (cache_of st !! agent_type); [reflexivity|].
  unfold get_agent_config. cbn [agent_config set_agent_cache].
  destruct (agent_config st) as [config|]; [|reflexivity].
  assert (Hcons : forall cls,
            executed
              (snd (let (o, st') :=
                      construct_into_cache agent_type cls config
                        (set_agent_cache (cache_of st) st) in
                    match o with
                    | Return _ => cache_item agent_type st'
                    | Raise e => (Raise e, st')
                    end)) = executed st).
  { intros cls. unfold construct_into_cache.
    cbn [agent_config agent_cache heap constructed executed cache_of set_agent_cache].
    destruct (cls config); [rewrite cache_item_state|]; reflexivity. }
  destruct (String.eqb agent_type "search"); [apply Hcons|].
  destruct (String.eqb agent_type "chat"); [apply Hcons|]. reflexivity.
Qed.

(** The call for a type that is neither cached nor recognized. *)
Lemma get_or_create_unknown (agent_type : string) (st : AppState) (config : AgentConfig) :
  agent_type <> "chat" -> agent_type <> "search" ->
  agent_config st = Some config ->
  cache_of st !! agent_type = None ->
  _get_or_create_agent agent_type st =
    (Raise (HTTPException 400 ("Unknown agent type '" +:+ agent_type +:+ "'")),
     set_agent_cache (cache_of st) st).
Proof.
  intros Hchat Hsearch Hconfig Hmiss.
  unfold _get_or_create_agent, bindM.
  rewrite get_agent_cache_eq, Hmiss.
  unfold get_agent_config. cbn [agent_config set_agent_cache]. rewrite Hconfig.
  apply String.eqb_neq in Hchat, Hsearch. rewrite Hchat, Hsearch.
  reflexivity.
Qed.

(** The call for a recognized type whose constructor raises. *)
Lemma get_or_create_constructor_raises (agent_type : string) (st : AppState)
    (config : AgentConfig) (e : exn) :
  agent_type = "chat" \/ agent_type = "search" ->
  agent_config st = Some config ->
  cache_of st !! agent_type = None ->
  constructor_of agent_type config = Raise e ->
  _get_or_create_agent agent_type st =
    (Raise e,
     Build_AppState (Some config) (Some (cache_of st)) (heap st)
       (constructed st ++ [(agent_type, config)]) (executed st)).
Proof.
  intros Hty Hconfig Hmiss Hctor.
  unfold _get_or_create_agent, bindM.
  rewrite get_agent_cache_eq, Hmiss.
  unfold get_agent_config. cbn [agent_config set_agent_cache]. rewrite Hconfig.
  rewrite (recognized_branch _ _ Hty).
  unfold construct_into_cache. rewrite Hctor.
  cbn [agent_config agent_cache heap constructed executed set_agent_cache].
  rewrite Hconfig. reflexivity.
Qed.

(** X1. A state whose [agent_cache] attribute is not set behaves as one
    whose cache is the empty dictionary: the registry gives the same
    outcome and leaves the same state. *)
Theorem missing_cache_is_empty_cache (agent_type : string) (st : AppState) :
  agent_cache st = None ->
  _get_or_create_agent agent_type st
  = _get_or_create_agent agent_type (set_agent_cache ∅ st).
Proof.
  intros Hnone.
  unfold _get_or_create_agent, bindM. rewrite !get_agent_cache_eq.
  assert (Hempty : cache_of st = ∅) by (unfold cache_of; rewrite Hnone; reflexivity).
  rewrite Hempty. reflexivity.
Qed.

(** X2. When the configuration attribute is not set and the type asked
    for is not cached, the registry raises the [AttributeError] of the
    missing attribute, for a recognized type and for an unknown one alike
    (the configuration is read before the type is looked at), and
    constructs nothing; the chat handler turns it into a response with
    [success = False]. *)
Theorem missing_config_is_a_fault (chat_request : ChatRequest.t) (st : AppState) :
  agent_config st = None ->
  cache_of st !! ChatRequest.agent_type chat_request = None ->
  let fault := "'State' object has no attribute 'agent_config'" in
  let st' := snd (_get_or_create_agent (ChatRequest.agent_type chat_request) st) in
  fst (_get_or_create_agent (ChatRequest.agent_type chat_request) st)
    = Raise (Exc AttributeError fault)
  /\ constructed st' = constructed st
  /\ heap st' = heap st
  /\ fst (chat_with_agent chat_request st)
     = Return {| ChatResponse.success := false;
                 ChatResponse.response := "";
                 ChatResponse.agent_type := ChatRequest.agent_type chat_request;
                 ChatResponse.capabilities := [];
                 ChatResponse.metadata := [];
                 ChatResponse.error := Some fault |}.
Proof.
  intros Hconfig Hmiss fault st'.
  assert (Hcall : _get_or_create_agent (ChatRequest.agent_type chat_request) st
                  = (Raise (Exc AttributeError fault), set_agent_cache (cache_of st) st)).
  { unfold _get_or_create_agent, bindM. rewrite get_agent_cache_eq, Hmiss.
    unfold get_agent_config. cbn [agent_config set_agent_cache]. rewrite Hconfig.
    reflexivity. }
  subst st'. rewrite Hcall. cbn [fst snd]. repeat split.
  unfold chat_with_agent, try_except, bindM. rewrite Hcall. reflexivity.
Qed.

(** X3. A constructor that raises leaves the registry as it was: the
    exception leaves the call, nothing is cached and no object is made;
    the failure is not remembered either, so the next call for the type
    calls the constructor again. *)
Theorem constructor_failure_not_cached (agent_type : string) (st : AppState)
    (config : AgentConfig) (e : exn) :
  agent_type = "chat" \/ agent_type = "search" ->
  agent_config st = Some config ->
  cache_of st !! agent_type = None ->
  constructor_of agent_type config = Raise e ->
  let st1 := snd (_get_or_create_agent agent_type st) in
  let st2 := snd (_get_or_create_agent agent_type st1) in
  fst (_get_or_create_agent agent_type st) = Raise e
  /\ cache_of st1 = cache_of st
  /\ heap st1 = heap st
  /\ fst (_get_or_create_agent agent_type st1) = Raise e
  /\ constructed st2 = constructed st ++ [(agent_type, config); (agent_type, config)].
Proof.
  intros Hty Hconfig Hmiss Hctor st1 st2.
  pose proof (get_or_create_constructor_raises _ _ _ _ Hty Hconfig Hmiss Hctor) as Hfirst.
  assert (Hst1 : st1 = Build_AppState (Some config) (Some (cache_of st)) (heap st)
                         (constructed st ++ [(agent_type, config)]) (executed st)).
  { subst st1. rewrite Hfirst. reflexivity. }
  assert (Hsecond := get_or_create_constructor_raises agent_type st1 config e Hty).
  rewrite Hst1 in Hsecond at 1 2. specialize (Hsecond eq_refl Hmiss Hctor).
  subst st2. rewrite Hfirst, Hsecond. cbn [fst snd]. rewrite Hst1.
  cbn [constructed cache_of agent_cache heap]. rewrite <- app_assoc.
  repeat split.
Qed.

End RegistryMore.

(** ** Further properties of the handlers *)

Section HandlerMore.
Context `{AgentImpl}.

(** A reference the registry returns is the one cached under the type. *)
Lemma get_or_create_returns_cached (agent_type : string) (st st1 : AppState) (agent : nat) :
  _get_or_create_agent agent_type st = (Return agent, st1) ->
  cache_of st1 !! agent_type = Some agent.
Proof.
  intros Hcall.
  destruct (get_or_create_cases agent_type st)
    as [(a & Hlook & Hhit)
       | [(e & st' & Hraise & _) | (config & obj & Hty & Hconfig & Hlook & Hctor)]].
  - rewrite Hhit in Hcall. injection Hcall as <- <-. exact Hlook.
  - rewrite Hraise in Hcall. discriminate.
  - rewrite (get_or_create_miss _ _ _ _ Hty Hconfig Hlook Hctor) in Hcall.
    injection Hcall as <- <-. unfold cache_of. cbn [agent_cache].
    apply lookup_insert_eq.
Qed.

(** A cached reference stays cached through a call of the registry. *)
Lemma get_or_create_keeps_binding (key : string) (agent : nat) (agent_type : string) :
  preserves (fun st => cache_of st !! key = Some agent) (_get_or_create_agent agent_type).
Proof.
  intros st Hkey.
  destruct (get_or_create_cases agent_type st)
    as [(a & Hlook & Hhit)
       | [(e & st' & Hraise & Hcache & _)
         | (config & obj & Hty & Hconfig & Hlook & Hctor)]].
  - rewrite Hhit. exact Hkey.
  - rewrite Hraise. cbn [snd]. rewrite Hcache. exact Hkey.
  - rewrite (get_or_create_miss _ _ _ _ Hty Hconfig Hlook Hctor).
    unfold cache_of at 1. cbn [snd agent_cache].
    rewrite lookup_insert_ne; [exact Hkey|]. intros ->. congruence.
Qed.

Lemma cache_of_set (config : option AgentConfig) (cache : gmap string nat)
    (objs : list Agent) (ctor : list (string * AgentConfig))
    (exec : list (nat * string * option bool)) :
  cache_of (Build_AppState config (Some cache) objs ctor exec) = cache.
Proof. reflexivity. Qed.

Lemma get_or_create_keeps_count (agent_type : string) :
  preserves heap_matches_cache (_get_or_create_agent agent_type).
Proof.
  intros st Hcount. unfold heap_matches_cache in *.
  destruct (get_or_create_cases agent_type st)
    as [(a & Hlook & Hhit)
       | [(e & st' & Hraise & Hcache & Hheap & _)
         | (config & obj & Hty & Hconfig & Hlook & Hctor)]].
  - rewrite Hhit. exact Hcount.
  - rewrite Hraise. cbn [snd]. rewrite Hcache, Hheap. exact Hcount.
  - rewrite (get_or_create_miss _ _ _ _ Hty Hconfig Hlook Hctor).
    cbn [snd heap]. rewrite cache_of_set.
    rewrite length_app, (map_size_insert_None _ _ _ Hlook). cbn [length]. lia.
Qed.

(** A property of cache and objects that the registry and [execute] keep
    is kept by the three handlers that use the agents. *)
Lemma agent_handlers_preserve (P : AppState -> Prop) :
  (forall agent_type, preserves P (_get_or_create_agent agent_type)) ->
  (forall agent prompt use_tools, preserves P (agent_execute agent prompt use_tools)) ->
  (forall chat_request, preserves P (chat_with_agent chat_request))
  /\ (forall search_request, preserves P (search_and_summarize search_request))
  /\ preserves P get_agent_capabilities.
Proof.
  intros Hget Hexec.
  assert (Hcaps : forall agent, preserves P (agent_get_capabilities agent)).
  { intros agent st Hst. unfold agent_get_capabilities.
    destruct (heap st !! agent); exact Hst. }
  split; [|split].
  - intros chat_request. unfold chat_with_agent.
    apply preserves_try;
      [|intros exc; destruct (is_HTTPException exc); [apply preserves_raise|];
        destruct (is_Exception exc); [apply preserves_ret | apply preserves_raise]].
    apply preserves_bind; [apply Hget|]. intros agent.
    apply preserves_bind; [apply Hexec|]. intros response.
    apply preserves_bind; [apply Hcaps|]. intros capabilities.
    apply preserves_ret.
  - intros search_request. unfold search_and_summarize.
    apply preserves_try;
      [|intros exc; destruct (is_HTTPException exc); [apply preserves_raise|];
        destruct (is_Exception exc); [apply preserves_ret | apply preserves_raise]].
    apply preserves_bind; [apply Hget|]. intros agent.
    apply preserves_bind; [apply Hexec|]. intros result.
    destruct (AgentResult.success result); [|apply preserves_ret].
    apply preserves_bind; [apply preserves_lift|]. intros n. apply preserves_ret.
  - unfold get_agent_capabilities.
    apply preserves_try;
      [|intros exc; destruct (is_HTTPException exc); [apply preserves_raise|];
        destruct (is_Exception exc); [apply preserves_ret | apply preserves_raise]].
    apply preserves_bind; [apply Hget|]. intros search_agent.
    apply preserves_bind; [apply Hget|]. intros chat_agent.
    apply preserves_bind; [apply Hcaps|]. intros c1.
    apply preserves_bind; [apply Hcaps|]. intros c2.
    apply preserves_ret.
Qed.

(** X4. An agent, once cached under a type, is never replaced: after a
    chat request, a search request or a capabilities request, whatever
    their outcome, the type is still cached with the same reference. *)
Theorem cached_agent_never_replaced (key : string) (agent : nat) (st : AppState)
    (chat_request : ChatRequest.t) (search_request : SearchRequest.t) :
  cache_of st !! key = Some agent ->
  cache_of (snd (chat_with_agent chat_request st)) !! key = Some agent
  /\ cache_of (snd (search_and_summarize search_request st)) !! key = Some agent
  /\ cache_of (snd (get_agent_capabilities st)) !! key = Some agent.
Proof.
  intros Hkey.
  destruct (agent_handlers_preserve (fun st => cache_of st !! key = Some agent))
    as (Hchat & Hsearch & Hcaps).
  - intros agent_type. apply get_or_create_keeps_binding.
  - intros a prompt use_tools st0 Hst0.
    destruct (agent_execute_keeps a prompt use_tools st0) as (Hcache & _).
    rewrite Hcache. exact Hst0.
  - split; [apply Hchat, Hkey | split; [apply Hsearch, Hkey | apply Hcaps, Hkey]].
Qed.

Lemma reachable_count (st : AppState) : reachable st -> heap_matches_cache st.
Proof.
  destruct (agent_handlers_preserve heap_matches_cache) as (Hchat & Hsearch & Hcaps).
  { intros agent_type. apply get_or_create_keeps_count. }
  { intros a prompt use_tools st0 Hst0. unfold heap_matches_cache in *.
    destruct (agent_execute_keeps a prompt use_tools st0) as (Hcache & Hlen & _).
    rewrite Hcache, Hlen. exact Hst0. }
  induction 1 as [ | chat_request st _ IH | search_request st _ IH | st _ IH ].
  - reflexivity.
  - apply Hchat, IH.
  - apply Hsearch, IH.
  - apply Hcaps, IH.
Qed.

Lemma recognized_size (st : AppState) : cache_recognized st -> (size (cache_of st) <= 2)%nat.
Proof.
  intros Hrec.
  assert (Hdom : dom (cache_of st) ⊆ ({["chat"; "search"]} : gset string)).
  { intros key Hkey. apply elem_of_dom in Hkey.
    destruct (Hrec key Hkey) as [-> | ->]; set_solver. }
  apply subseteq_size in Hdom. rewrite size_dom in Hdom.
  etransitivity; [exact Hdom|].
  rewrite size_union by set_solver. rewrite !size_singleton. lia.
Qed.

(** X5. Whatever requests the server has handled since start-up, it holds
    as many agent objects as there are cached types, and at most two. *)
Theorem at_most_two_agents (st : AppState) :
  reachable st ->
  length (heap st) = size (cache_of st) /\ (length (heap st) <= 2)%nat.
Proof.
  intros Hreach.
  pose proof (reachable_count st Hreach) as Hcount.
  destruct (reachable_ready st Hreach) as (_ & Hrec & _).
  split; [exact Hcount|]. rewrite Hcount. apply recognized_size, Hrec.
Qed.

End HandlerMore.

Section RequestFacts.
Context `{AgentImpl}.

(* The clauses of a handler, by the class of the exception. *)
Ltac fault_cases :=
  repeat match goal with
         | |- context [is_HTTPException ?e] => destruct (is_HTTPException e)
         | |- context [is_Exception ?e] => destruct (is_Exception e)
         end.

(** The state a chat request leaves: the one the registry left, changed by
    the call of [execute] when the agent was resolved. *)
Lemma chat_state (chat_request : ChatRequest.t) (st : AppState) :
  snd (chat_with_agent chat_request st) =
    match _get_or_create_agent (ChatRequest.agent_type chat_request) st with
    | (Return agent, st1) =>
        snd (agent_execute agent (ChatRequest.message chat_request) None st1)
    | (Raise _, st1) => st1
    end.
Proof.
  unfold chat_with_agent, try_except, bindM.
  destruct (_get_or_create_agent (ChatRequest.agent_type chat_request) st)
    as [[agent|e] st1].
  - destruct (agent_execute agent (ChatRequest.message chat_request) None st1)
      as [[response|e] st2]; cbn [snd].
    + unfold agent_get_capabilities.
      destruct (heap st2 !! agent) as [obj|]; [destruct (get_capabilities obj) as [c|e]|];
        try reflexivity; fault_cases; reflexivity.
    + fault_cases; reflexivity.
  - fault_cases; reflexivity.
Qed.

Lemma search_state (search_request : SearchRequest.t) (st : AppState) :
  snd (search_and_summarize search_request st) =
    match _get_or_create_agent "search" st with
    | (Return agent, st1) =>
        snd (agent_execute agent (search_prompt (SearchRequest.query search_request))
               (Some true) st1)
    | (Raise _, st1) => st1
    end.
Proof.
  unfold search_and_summarize, try_except, bindM.
  destruct (_get_or_create_agent "search" st) as [[agent|e] st1].
  - destruct (agent_execute agent (search_prompt (SearchRequest.query search_request))
                (Some true) st1) as [[result|e] st2]; cbn [snd].
    + destruct (AgentResult.success result); [|reflexivity].
      unfold lift.
      destruct (sources_count_of _) as [n|e]; [reflexivity|].
      fault_cases; reflexivity.
    + fault_cases; reflexivity.
  - fault_cases; reflexivity.
Qed.

Lemma capabilities_state (st : AppState) :
  snd (get_agent_capabilities st) =
    match _get_or_create_agent "search" st with
    | (Return _, st1) => snd (_get_or_create_agent "chat" st1)
    | (Raise _, st1) => st1
    end.
Proof.
  unfold get_agent_capabilities, try_except, bindM.
  destruct (_get_or_create_agent "search" st) as [[search_agent|e] st1].
  - destruct (_get_or_create_agent "chat" st1) as [[chat_agent|e] st2]; cbn [snd].
    + unfold agent_get_capabilities.
      destruct (heap st2 !! search_agent) as [o1|];
        [destruct (get_capabilities o1) as [c1|e1];
         [destruct (heap st2 !! chat_agent) as [o2|];
          [destruct (get_capabilities o2) as [c2|e2]|]|]|];
        try reflexivity; fault_cases; reflexivity.
    + fault_cases; reflexivity.
  - fault_cases; reflexivity.
Qed.

Lemma agent_execute_executed (agent : nat) (prompt : string) (use_tools : option bool)
    (st : AppState) :
  executed (snd (agent_execute agent prompt use_tools st))
  = executed st ++ [(agent, prompt, use_tools)].
Proof.
  unfold agent_execute. destruct (heap st !! agent) as [obj|]; [|reflexivity].
  destruct (execute obj prompt use_tools). reflexivity.
Qed.

(** X6. A chat request calls [execute] at most once, on the agent cached
    under the requested type, with the message as it came and without
    [use_tools]; a search request calls it at most once, on the agent
    cached under ["search"], with the prompt built from the query and
    [use_tools=True]; a capabilities request never calls it. *)
Theorem one_execute_per_request (chat_request : ChatRequest.t)
    (search_request : SearchRequest.t) (st : AppState) :
  let after_chat := snd (chat_with_agent chat_request st) in
  let after_search := snd (search_and_summarize search_request st) in
  (executed after_chat = executed st
   \/ exists agent,
        cache_of after_chat !! ChatRequest.agent_type chat_request = Some agent
        /\ executed after_chat
           = executed st ++ [(agent, ChatRequest.message chat_request, None)])
  /\ (executed after_search = executed st
      \/ exists agent,
           cache_of after_search !! "search" = Some agent
           /\ executed after_search
              = executed st
                ++ [(agent, search_prompt (SearchRequest.query search_request), Some true)])
  /\ executed (snd (get_agent_capabilities st)) = executed st.
Proof.
  intros after_chat after_search. split; [|split].
  - subst after_chat. rewrite chat_state.
    pose proof (get_or_create_executed (ChatRequest.agent_type chat_request) st) as Hexec.
    destruct (_get_or_create_agent (ChatRequest.agent_type chat_request) st)
      as [[agent|e] st1] eqn:Hcall; cbn [snd] in Hexec; [|left; exact Hexec].
    right. exists agent. split.
    + destruct (agent_execute_keeps agent (ChatRequest.message chat_request) None st1)
        as (Hcache & _).
      rewrite Hcache. apply (get_or_create_returns_cached _ _ _ _ Hcall).
    + rewrite agent_execute_executed, Hexec. reflexivity.
  - subst after_search. rewrite search_state.
    pose proof (get_or_create_executed "search" st) as Hexec.
    destruct (_get_or_create_agent "search" st) as [[agent|e] st1] eqn:Hcall;
      cbn [snd] in Hexec; [|left; exact Hexec].
    right. exists agent. split.
    + destruct (agent_execute_keeps agent
                  (search_prompt (SearchRequest.query search_request)) (Some true) st1)
        as (Hcache & _).
      rewrite Hcache. apply (get_or_create_returns_cached _ _ _ _ Hcall).
    + rewrite agent_execute_executed, Hexec. reflexivity.
  - rewrite capabilities_state.
    pose proof (get_or_create_executed "search" st) as Hexec.
    destruct (_get_or_create_agent "search" st) as [[agent|e] st1];
      cbn [snd] in Hexec; [|exact Hexec].
    rewrite get_or_create_executed. exact Hexec.
Qed.

Lemma bindM_raises {A B : Type} (m : M A) (k : A -> M B) (st : AppState) (e : exn) :
  fst (bindM m k st) = Raise e ->
  fst (m st) = Raise e
  \/ exists a st1, m st = (Return a, st1) /\ fst (k a st1) = Raise e.
Proof.
  unfold bindM. destruct (m st) as [[a|e0] st1]; cbn [fst]; [eauto|].
  intros [= <-]. left. reflexivity.
Qed.

(** What leaves a [try] whose clauses are [except HTTPException: raise]
    and [except Exception]: an exception of the body that is an
    [HTTPException] or does not derive from [Exception]. *)
Lemma try_except_raises {A : Type} (body : M A) (fallback : exn -> A)
    (st : AppState) (e : exn) :
  fst (try_except body
         (fun exc => if is_HTTPException exc then raise exc
                     else if is_Exception exc then ret (fallback exc)
                     else raise exc) st) = Raise e ->
  fst (body st) = Raise e
  /\ (is_HTTPException e = true \/ is_Exception e = false).
Proof.
  unfold try_except. destruct (body st) as [[a|e0] st1]; cbn [fst]; [discriminate|].
  destruct (is_HTTPException e0) eqn:Hhttp; [intros [= <-]; auto|].
  destruct (is_Exception e0) eqn:Hexc; [discriminate | intros [= <-]; auto].
Qed.

(** The exceptions of the registry: those of its own code (a missing
    attribute, the client error of an unknown type) and those of the
    constructors. *)
Lemma get_or_create_raises (agent_type : string) (st : AppState) (e : exn) :
  fst (_get_or_create_agent agent_type st) = Raise e ->
  (is_HTTPException e = false /\ is_Exception e = true)
  \/ (agent_type <> "search" /\ agent_type <> "chat"
      /\ e = HTTPException 400 ("Unknown agent type '" +:+ agent_type +:+ "'"))
  \/ raised_by_agents e.
Proof.
  unfold _get_or_create_agent. intros Hcall.
  apply bindM_raises in Hcall. destruct Hcall as [Hcall | (cache & st1 & _ & Hcall)].
  { unfold _get_agent_cache in Hcall. destruct (agent_cache st); discriminate. }
  destruct (cache !! agent_type); [discriminate|].
  apply bindM_raises in Hcall. destruct Hcall as [Hcall | (config & st2 & _ & Hcall)].
  { unfold get_agent_config in Hcall. destruct (agent_config st1); [discriminate|].
    injection Hcall as <-. left. split; reflexivity. }
  apply bindM_raises in Hcall. destruct Hcall as [Hcall | (? & st3 & _ & Hcall)].
  - destruct (String.eqb agent_type "search") eqn:Hsearch;
      [|destruct (String.eqb agent_type "chat") eqn:Hchat].
    + unfold construct_into_cache in Hcall.
      destruct (SearchAgent config) as [obj|e0] eqn:Hctor; [discriminate|].
      injection Hcall as <-. right. right. left. eauto.
    + unfold construct_into_cache in Hcall.
      destruct (ChatAgent config) as [obj|e0] eqn:Hctor; [discriminate|].
      injection Hcall as <-. right. right. right. left. eauto.
    + injection Hcall as <-. right. left.
      apply String.eqb_neq in Hsearch, Hchat. auto.
  - unfold cache_item in Hcall. destruct (cache_of st3 !! agent_type); [discriminate|].
    injection Hcall as <-. left. split; reflexivity.
Qed.

Lemma agent_execute_raises (agent : nat) (prompt : string) (use_tools : option bool)
    (st : AppState) (e : exn) :
  fst (agent_execute agent prompt use_tools st) = Raise e ->
  (is_HTTPException e = false /\ is_Exception e = true) \/ raised_by_agents e.
Proof.
  unfold agent_execute. destruct (heap st !! agent) as [obj|].
  - destruct (execute obj prompt use_tools) as [result obj'] eqn:Hexec. cbn [fst].
    intros ->. right. right. right. left. eauto.
  - intros [= <-]. left. split; reflexivity.
Qed.

Lemma agent_get_capabilities_raises (agent : nat) (st : AppState) (e : exn) :
  fst (agent_get_capabilities agent st) = Raise e ->
  (is_HTTPException e = false /\ is_Exception e = true) \/ raised_by_agents e.
Proof.
  unfold agent_get_capabilities. destruct (heap st !! agent) as [obj|]; cbn [fst].
  - intros Hcaps. right. right. right. right. eauto.
  - intros [= <-]. left. split; reflexivity.
Qed.

(** X7. An exception leaves the chat, search or capabilities handler only
    if it is an [HTTPException] or does not derive from [Exception] (the
    [CancelledError] of a cancelled request); and it is then the client
    error 400 of the registry for the requested type, or an exception an
    agent collaborator raised (a constructor, [execute] or
    [get_capabilities]).  Every other exception is answered with a
    body. *)
Theorem handlers_raise_only_HTTPException (chat_request : ChatRequest.t)
    (search_request : SearchRequest.t) (st : AppState) :
  match fst (chat_with_agent chat_request st) with
  | Raise e =>
      (is_HTTPException e = true \/ is_Exception e = false)
      /\ (e = HTTPException 400
                ("Unknown agent type '" +:+ ChatRequest.agent_type chat_request +:+ "'")
          \/ raised_by_agents e)
  | Return _ => True
  end
  /\ match fst (search_and_summarize search_request st) with
     | Raise e =>
         (is_HTTPException e = true \/ is_Exception e = false) /\ raised_by_agents e
     | Return _ => True
     end
  /\ match fst (get_agent_capabilities st) with
     | Raise e =>
         (is_HTTPException e = true \/ is_Exception e = false) /\ raised_by_agents e
     | Return _ => True
     end.
Proof.
  assert (Hplain : forall e (P : Prop),
             is_HTTPException e = true \/ is_Exception e = false ->
             (is_HTTPException e = false /\ is_Exception e = true) \/ P -> P).
  { intros e P [Hhttp|Hexc] [[Hhttp' Hexc']|HP]; try exact HP; congruence. }
  split; [|split].
  - destruct (fst (chat_with_agent chat_request st)) as [r|e] eqn:Hchat; [exact I|].
    unfold chat_with_agent in Hchat.
    apply try_except_raises in Hchat. destruct Hchat as [Hbody Hkind].
    split; [exact Hkind|].
    apply bindM_raises in Hbody. destruct Hbody as [Hbody | (agent & st1 & _ & Hbody)].
    { apply get_or_create_raises in Hbody. apply (Hplain _ _ Hkind).
      destruct Hbody as [Hbody | [(_ & _ & Hbody) | Hbody]]; auto. }
    right.
    apply bindM_raises in Hbody. destruct Hbody as [Hbody | (response & st2 & _ & Hbody)].
    { apply agent_execute_raises in Hbody. exact (Hplain _ _ Hkind Hbody). }
    apply bindM_raises in Hbody. destruct Hbody as [Hbody | (caps & st3 & _ & Hbody)].
    { apply agent_get_capabilities_raises in Hbody. exact (Hplain _ _ Hkind Hbody). }
    discriminate.
  - destruct (fst (search_and_summarize search_request st)) as [r|e] eqn:Hsearch;
      [exact I|].
    unfold search_and_summarize in Hsearch.
    apply try_except_raises in Hsearch. destruct Hsearch as [Hbody Hkind].
    split; [exact Hkind|].
    apply bindM_raises in Hbody. destruct Hbody as [Hbody | (agent & st1 & _ & Hbody)].
    { apply get_or_create_raises in Hbody.
      apply (Hplain _ _ Hkind).
      destruct Hbody as [Hbody | [(Hty & _) | Hbody]]; [auto | | auto].
      contradiction Hty; reflexivity. }
    apply bindM_raises in Hbody. destruct Hbody as [Hbody | (result & st2 & _ & Hbody)].
    { apply agent_execute_raises in Hbody. exact (Hplain _ _ Hkind Hbody). }
    destruct (AgentResult.success result); [|discriminate].
    apply bindM_raises in Hbody. destruct Hbody as [Hbody | (n & st3 & _ & Hbody)];
      [|discriminate].
    unfold lift in Hbody. cbn [fst] in Hbody. rewrite sources_count_of_eq in Hbody.
    pose proof (int_not_HTTPException _ _ Hbody) as Hhttp.
    pose proof (int_raises_Exception _ _ Hbody) as Hexc.
    destruct Hkind; congruence.
  - destruct (fst (get_agent_capabilities st)) as [r|e] eqn:Hcaps; [exact I|].
    unfold get_agent_capabilities in Hcaps.
    apply try_except_raises in Hcaps. destruct Hcaps as [Hbody Hkind].
    split; [exact Hkind|].
    assert (Hget : forall agent_type st0,
               agent_type = "search" \/ agent_type = "chat" ->
               fst (_get_or_create_agent agent_type st0) = Raise e -> raised_by_agents e).
    { intros agent_type st0 Hty Hcall. apply get_or_create_raises in Hcall.
      apply (Hplain _ _ Hkind).
      destruct Hcall as [Hcall | [(Hs & Hc & _) | Hcall]]; [auto | | auto].
      destruct Hty; congruence. }
    apply bindM_raises in Hbody. destruct Hbody as [Hbody | (a1 & st1 & _ & Hbody)];
      [apply (Hget "search" st); [left; reflexivity | exact Hbody]|].
    apply bindM_raises in Hbody. destruct Hbody as [Hbody | (a2 & st2 & _ & Hbody)];
      [apply (Hget "chat" st1); [right; reflexivity | exact Hbody]|].
    apply bindM_raises in Hbody. destruct Hbody as [Hbody | (c1 & st3 & _ & Hbody)].
    { apply agent_get_capabilities_raises in Hbody. exact (Hplain _ _ Hkind Hbody). }
    apply bindM_raises in Hbody. destruct Hbody as [Hbody | (c2 & st4 & _ & Hbody)].
    { apply agent_get_capabilities_raises in Hbody. exact (Hplain _ _ Hkind Hbody). }
    discriminate.
Qed.

(** X8. A chat request for an agent type that is neither ["chat"] nor
    ["search"] is refused with the client error 400 naming the type
    before anything else happens: no constructor and no [execute] is
    called, no object is made and the cache holds what it held. *)
Theorem chat_unknown_type_refused (chat_request : ChatRequest.t) (st : AppState)
    (config : AgentConfig) :
  ChatRequest.agent_type chat_request <> "chat" ->
  ChatRequest.agent_type chat_request <> "search" ->
  agent_config st = Some config ->
  cache_recognized st ->
  let st' := snd (chat_with_agent chat_request st) in
  fst (chat_with_agent chat_request st)
    = Raise (HTTPException 400
               ("Unknown agent type '" +:+ ChatRequest.agent_type chat_request +:+ "'"))
  /\ executed st' = executed st
  /\ constructed st' = constructed st
  /\ heap st' = heap st
  /\ cache_of st' = cache_of st.
Proof.
  intros Hchat Hsearch Hconfig Hrec st'.
  pose proof (unrecognized_miss _ _ Hchat Hsearch Hrec) as Hmiss.
  pose proof (get_or_create_unknown _ _ _ Hchat Hsearch Hconfig Hmiss) as Hcall.
  subst st'. rewrite chat_state.
  unfold chat_with_agent, try_except, bindM. rewrite Hcall. repeat split.
Qed.

End RequestFacts.

Section CapabilitiesFacts.
Context `{AgentImpl}.

(** X9. A capabilities request that answers with [success = True] leaves
    both agent types cached: every later call of the registry for
    ["search"] or ["chat"] is answered from the cache and constructs
    nothing. *)
Theorem capabilities_warm_the_cache (st : AppState) (r : value) :
  fst (get_agent_capabilities st) = Return r ->
  get r "success" VNone = Return (VBool true) ->
  let st' := snd (get_agent_capabilities st) in
  exists search_agent chat_agent,
    cache_of st' !! "search" = Some search_agent
    /\ cache_of st' !! "chat" = Some chat_agent
    /\ forall k,
         get_or_create_repeatedly k "search" st' = (replicate k (Return search_agent), st')
         /\ get_or_create_repeatedly k "chat" st' = (replicate k (Return chat_agent), st').
Proof.
  intros Hr Hsuccess st'. subst st'. rewrite capabilities_state.
  unfold get_agent_capabilities, try_except, bindM in Hr.
  assert (Hfault : forall e st0,
             fst ((if is_HTTPException e then raise e
                   else if is_Exception e then
                     ret (VDict [("success", VBool false); ("error", VStr (str_exn e))])
                   else raise e)
                    st0) = Return r -> False).
  { intros e st0 He. destruct (is_HTTPException e); [discriminate|].
    destruct (is_Exception e); [|discriminate].
    injection He as <-. discriminate. }
  destruct (_get_or_create_agent "search" st) as [[search_agent|e] st1] eqn:Hsearch;
    [|exfalso; exact (Hfault _ _ Hr)].
  destruct (_get_or_create_agent "chat" st1) as [[chat_agent|e] st2] eqn:Hchat;
    [|exfalso; exact (Hfault _ _ Hr)].
  cbn [snd].
  assert (Hs : cache_of st2 !! "search" = Some search_agent).
  { pose proof (get_or_create_keeps_binding "search" search_agent "chat" st1
                  (get_or_create_returns_cached _ _ _ _ Hsearch)) as Hkeep.
    rewrite Hchat in Hkeep. exact Hkeep. }
  pose proof (get_or_create_returns_cached _ _ _ _ Hchat) as Hc.
  exists search_agent, chat_agent. split; [exact Hs|]. split; [exact Hc|].
  intros k. split; apply repeatedly_hit; assumption.
Qed.

(** X10. In a capabilities request the search agent comes first: when its
    constructor raises an exception that is not an [HTTPException], the
    answer is the body with [success = False] and the text of the
    exception (the exception itself passes through when it does not
    derive from [Exception]), and the chat agent is not constructed;
    nothing is cached. *)
Theorem capabilities_search_failure (st : AppState) (config : AgentConfig) (e : exn) :
  agent_config st = Some config ->
  cache_of st !! "search" = None ->
  SearchAgent config = Raise e ->
  is_HTTPException e = false ->
  let st' := snd (get_agent_capabilities st) in
  fst (get_agent_capabilities st)
    = (if is_Exception e
       then Return (VDict [ ("success", VBool false); ("error", VStr (str_exn e)) ])
       else Raise e)
  /\ constructed st' = constructed st ++ [("search", config)]
  /\ cache_of st' = cache_of st
  /\ heap st' = heap st.
Proof.
  intros Hconfig Hmiss Hctor Hexc st'.
  assert (Hcall := get_or_create_constructor_raises "search" st config e
                     (or_intror eq_refl) Hconfig Hmiss Hctor).
  subst st'. rewrite capabilities_state.
  unfold get_agent_capabilities, try_except, bindM.
  rewrite Hcall, Hexc. destruct (is_Exception e); repeat split.
Qed.

(** X11. On a structured success of the search agent, [sources_count] is
    [0] when the metadata has neither counter, and also when
    ["tool_run_count"] is present with a false value ([None], [0], an
    empty string or container): the key that is present wins even then,
    whatever ["tools_used"] holds. *)
Theorem sources_count_zero (search_request : SearchRequest.t) (st st1 : AppState)
    (agent : nat) (obj obj' : Agent) (r : AgentResult.t) :
  _get_or_create_agent "search" st = (Return agent, st1) ->
  heap st1 !! agent = Some obj ->
  execute obj (search_prompt (SearchRequest.query search_request)) (Some true)
    = (Return r, obj') ->
  AgentResult.success r = true ->
  (exists v, dict_lookup "tool_run_count" (AgentResult.metadata r) = Some v
             /\ truthy v = false)
  \/ (dict_lookup "tool_run_count" (AgentResult.metadata r) = None
      /\ dict_lookup "tools_used" (AgentResult.metadata r) = None) ->
  fst (search_and_summarize search_request st)
  = Return {| SearchResponse.success := true;
              SearchResponse.query := SearchRequest.query search_request;
              SearchResponse.summary := AgentResult.content r;
              SearchResponse.search_results := Some (AgentResult.metadata r);
              SearchResponse.sources_count := 0;
              SearchResponse.error := None |}.
Proof.
  intros Hget Hobj Hexec Hok Hcases.
  rewrite (search_after_execute _ _ _ _ _ _ _ Hget Hobj Hexec), Hok.
  assert (Hzero : or_ (winning_value (AgentResult.metadata r)) (VInt 0) = VInt 0).
  { unfold winning_value, or_.
    destruct Hcases as [(v & Hv & Hfalse) | (Hrun & Hused)].
    - rewrite Hv, Hfalse. reflexivity.
    - rewrite Hrun, Hused. reflexivity. }
  rewrite Hzero. reflexivity.
Qed.

End CapabilitiesFacts.

(** ** Further properties of the vault handlers *)

Section VaultMore.

Ltac invert_bind H :=
  let x := fresh "x" in
  let Hx := fresh "Hx" in
  apply bind_Return_inv in H; destruct H as (x & Hx & H); cbv beta in H.

(** A loop that returns has met only entries it could get past, and
    returns the survivors after what it had. *)
Lemma collect_vaults_returns (chain_id : Z) (markets : list value) :
  forall acc vaults,
    collect_vaults chain_id markets acc = Return vaults ->
    vaults = acc ++ survivors chain_id markets /\ Forall (skippable chain_id) markets.
Proof.
  induction markets as [|market markets IH]; intros acc vaults;
    cbn [collect_vaults].
  - intros [= <-]. rewrite app_nil_r. split; [reflexivity | constructor].
  - unfold survivors. cbn [omap list_omap].
    fold (survivors chain_id markets).
    destruct (coerce_market chain_id market) as [vault|e] eqn:Hcm.
    + intros Hc. destruct (IH _ _ Hc) as [-> Hall].
      rewrite <- app_assoc. split; [reflexivity|].
      constructor; [unfold skippable; rewrite Hcm; exact I | exact Hall].
    + destruct (is_ValueError_TypeError_KeyError e) eqn:He; [|discriminate].
      intros Hc. destruct (IH _ _ Hc) as [-> Hall].
      split; [reflexivity|].
      constructor; [unfold skippable; rewrite Hcm; exact He | exact Hall].
Qed.

Lemma survivors_le (chain_id : Z) (markets : list value) :
  (length (survivors chain_id markets) <= length markets)%nat.
Proof.
  unfold survivors. induction markets as [|market markets IH]; cbn; [lia|].
  destruct (coerce_market chain_id market); cbn; lia.
Qed.


(** X13. The listing answers [success = True] only when the provider
    answered with a 2xx status and a JSON object, its ["markets"] (an
    empty list when the key is absent) could be iterated, and every entry
    either coerced or failed with an exception the loop catches; the
    vaults are then the survivors, in order, never more than the entries. *)
Theorem vaults_success_only_if (client_get : string -> outcome Response.t)
    (chain_id : Z) (r : VaultsResponse.t) :
  get_pendle_vaults client_get chain_id = Return r ->
  VaultsResponse.success r = true ->
  exists response payload markets,
    client_get (pendle_api_url chain_id) = Return response
    /\ Response.raise_for_status response = Return tt
    /\ Response.json response = Return (VDict payload)
    /\ iter (match dict_lookup "markets" payload with
             | Some v => v
             | None => VList []
             end) = Return markets
    /\ Forall (skippable chain_id) markets
    /\ VaultsResponse.vaults r = survivors chain_id markets
    /\ (length (VaultsResponse.vaults r) <= length markets)%nat.
Proof.
  unfold get_pendle_vaults. intros Hr Hsuccess.
  destruct (fetch_vaults client_get chain_id) as [r0|exc] eqn:Hfetch.
  - injection Hr as ->. unfold fetch_vaults in Hfetch.
    invert_bind Hfetch. rename x into response, Hx into Hget.
    invert_bind Hfetch. destruct x. rename Hx into Hstatus.
    invert_bind Hfetch. rename x into data, Hx into Hjson.
    invert_bind Hfetch. rename x into markets_value, Hx into Hmarkets.
    invert_bind Hfetch. rename x into markets, Hx into Hiter.
    invert_bind Hfetch. rename x into vaults, Hx into Hloop.
    injection Hfetch as <-. cbn [VaultsResponse.vaults].
    destruct data as [ | | | | | | payload]; try discriminate.
    cbn [get] in Hmarkets. injection Hmarkets as <-.
    destruct (collect_vaults_returns _ _ _ _ Hloop) as [-> Hall]. cbn [app].
    exists response, payload, markets.
    repeat split; try assumption. apply survivors_le.
  - destruct (is_HTTPError exc); [injection Hr as <-; discriminate|].
    destruct (is_Exception exc); [injection Hr as <-; discriminate | discriminate].
Qed.

(** X14. A 2xx answer whose JSON object has no ["markets"] key, or an
    empty list under it, gives [success = True] with no vault and
    [total = 0]. *)
Theorem vaults_no_markets (client_get : string -> outcome Response.t) (chain_id : Z)
    (response : Response.t) (payload : list (string * value)) :
  client_get (pendle_api_url chain_id) = Return response ->
  Response.raise_for_status response = Return tt ->
  Response.json response = Return (VDict payload) ->
  dict_lookup "markets" payload = None \/ dict_lookup "markets" payload = Some (VList []) ->
  get_pendle_vaults client_get chain_id =
    Return {| VaultsResponse.success := true;
              VaultsResponse.vaults := [];
              VaultsResponse.total := 0;
              VaultsResponse.error := None |}.
Proof.
  intros Hget Hstatus Hjson Hmarkets.
  unfold get_pendle_vaults, fetch_vaults.
  rewrite Hget. cbn [bind]. rewrite Hstatus. cbn [bind]. rewrite Hjson. cbn [bind get].
  destruct Hmarkets as [-> | ->]; reflexivity.
Qed.

(** X15. A 2xx answer of the wrong shape gives up the listing with the
    text of the Python fault as error: a JSON value that is not an object
    has no [get]; a ["markets"] that is [null], a boolean or a number
    cannot be iterated. *)
Theorem vaults_malformed_payload (client_get : string -> outcome Response.t)
    (chain_id : Z) (response : Response.t) (data : value) :
  client_get (pendle_api_url chain_id) = Return response ->
  Response.raise_for_status response = Return tt ->
  Response.json response = Return data ->
  match data with
  | VDict payload =>
      forall markets,
        dict_lookup "markets" payload = Some markets ->
        match markets with
        | VList _ | VDict _ | VStr _ => True
        | _ =>
            get_pendle_vaults client_get chain_id =
              Return (vaults_failure ("'" +:+ type_name markets
                                      +:+ "' object is not iterable"))
        end
  | _ =>
      get_pendle_vaults client_get chain_id =
        Return (vaults_failure ("'" +:+ type_name data
                                +:+ "' object has no attribute 'get'"))
  end.
Proof.
  intros Hget Hstatus Hjson.
  assert (Hstart : forall k : value -> outcome VaultsResponse.t,
             bind (client_get (pendle_api_url chain_id)) (fun response =>
             bind (Response.raise_for_status response) (fun _ =>
             bind (Response.json response) k)) = k data).
  { intros k. rewrite Hget. cbn [bind]. rewrite Hstatus. cbn [bind].
    rewrite Hjson. reflexivity. }
  unfold get_pendle_vaults, fetch_vaults. rewrite Hstart.
  destruct data as [ | b | n | f | s | l | payload]; try reflexivity.
  intros markets Hmarkets. cbn [get bind]. rewrite Hmarkets.
  destruct markets; try exact I; reflexivity.
Qed.

Lemma new_text_inv (address name symbol expiry : value) (chain_id : Z)
    (f1 f2 f3 f4 f5 f6 f7 : float) (vault : VaultData.t) :
  VaultData.new address name symbol expiry chain_id f1 f2 f3 f4 f5 f6 f7 = Return vault ->
  address = VStr (VaultData.address vault) /\ name = VStr (VaultData.name vault)
  /\ symbol = VStr (VaultData.symbol vault) /\ expiry = VStr (VaultData.expiry vault).
Proof.
  unfold VaultData.new. intros Hnew.
  destruct address, name, symbol, expiry; try discriminate.
  injection Hnew as <-. cbn. repeat split.
Qed.

(** X16. In a market entry that coerces, each text field is the string
    found under its key, or its default when the key is absent: the empty
    string for address, symbol and expiry, ["Unknown"] for the name.  (So
    an entry with another JSON value under one of these keys does not
    coerce.) *)
Theorem text_fields_read (chain_id : Z) (market : value) (vault : VaultData.t) :
  coerce_market chain_id market = Return vault ->
  Forall (fun entry =>
            let '(key, default, field) := entry in
            get market key (VStr default) = Return (VStr (field vault)))
    text_fields.
Proof.
  unfold coerce_market. intros Hc.
  invert_bind Hc.
  invert_bind Hc. rename x0 into address, Hx0 into Haddress.
  invert_bind Hc. rename x0 into name, Hx0 into Hname.
  invert_bind Hc. rename x0 into symbol, Hx0 into Hsymbol.
  invert_bind Hc. rename x0 into expiry, Hx0 into Hexpiry.
  do 7 invert_bind Hc.
  apply new_text_inv in Hc. destruct Hc as (-> & -> & -> & ->).
  unfold text_fields. repeat constructor; assumption.
Qed.


(** X18. On a transport or HTTP fault of the provider (a timeout, a
    connection error, a status that is not 2xx) the single-vault handler
    raises the server error 500 whose detail is ["Failed to fetch vault
    details: "] and the text of the fault. *)
Theorem vault_details_transport_failure (client_get : string -> outcome Response.t)
    (vault_address : string) (chain_id : Z) (e : exn) :
  transport_fault (client_get (vault_details_url chain_id vault_address)) = Some e ->
  get_vault_details client_get vault_address chain_id
  = Raise (HTTPException 500 ("Failed to fetch vault details: " +:+ str_exn e)).
Proof.
  unfold transport_fault, get_vault_details, fetch_vault_details. intros Hfault.
  destruct (client_get (vault_details_url chain_id vault_address)) as [response|e0];
    cbn [bind].
  - unfold Response.raise_for_status in Hfault |- *.
    destruct ((200 <=? Response.status_code response)
              && (Response.status_code response <=? 299)); [discriminate|].
    injection Hfault as <-. reflexivity.
  - destruct (is_HTTPError e0) eqn:He0; [|discriminate].
    injection Hfault as <-. reflexivity.
Qed.

End VaultMore.

(** ** Status checks and start-up *)

Section StatusFacts.
Context `{StoreImpl}.

(** X19. While the database attribute is not set, creating a status check
    and listing the status checks both raise the error 503 ["Database not
    ready"] before anything else: no identifier or time is drawn and the
    state stays as it is. *)
Theorem status_db_not_ready (input : StatusCheckCreate.t) (st : StatusState) :
  db st = None ->
  create_status_check input st = (Raise (HTTPException 503 "Database not ready"), st)
  /\ get_status_checks st = (Raise (HTTPException 503 "Database not ready"), st).
Proof.
  intros Hdb. unfold create_status_check, get_status_checks, bindS, _ensure_db.
  rewrite Hdb. split; reflexivity.
Qed.

(** X20. With the database set, creating a status check returns an object
    only after that very object was handed to [insert_one], once, and the
    object carries the client name of the request; an exception of
    [insert_one] leaves the handler as it is, whatever its class. *)
Theorem create_status_check_stores_what_it_returns (input : StatusCheckCreate.t)
    (st : StatusState) (database : Database) :
  db st = Some database ->
  match fst (create_status_check input st) with
  | Return status_obj =>
      StatusCheck.client_name status_obj = StatusCheckCreate.client_name input
      /\ fst (insert_one database (document_of status_obj)) = Return tt
      /\ db (snd (create_status_check input st))
         = Some (snd (insert_one database (document_of status_obj)))
  | Raise e => exists document, fst (insert_one database document) = Raise e
  end.
Proof.
  intros Hdb. unfold create_status_check, bindS, _ensure_db, new_status_check,
    db_insert_one.
  rewrite Hdb.
  destruct (uuid4 (world st)) as [id w1]. destruct (now w1) as [timestamp w2].
  cbn [db world].
  destruct (insert_one database _) as [[[]|e] database'] eqn:Hinsert; cbn [fst snd].
  - rewrite Hinsert. repeat split.
  - eexists. rewrite Hinsert. reflexivity.
Qed.

Lemma status_checks_of_converts (documents : list Document) :
  forall st status_checks,
    fst (status_checks_of documents st) = Return status_checks ->
    converts documents (world st) status_checks
      (world (snd (status_checks_of documents st)))
    /\ db (snd (status_checks_of documents st)) = db st.
Proof.
  induction documents as [|document documents IH]; intros st status_checks;
    cbn [status_checks_of].
  - intros [= <-]. split; [constructor | reflexivity].
  - unfold bindS.
    destruct (status_check_of document (world st)) as [[status_check|e] w] eqn:Hdoc;
      [|discriminate].
    destruct (status_checks_of documents _) as [[rest|e] st'] eqn:Hrest;
      [|discriminate].
    cbn [fst snd]. intros [= <-].
    destruct (IH {| db := db st; world := w |} rest) as [Hconv Hdb];
      [rewrite Hrest; reflexivity|].
    rewrite Hrest in Hconv, Hdb. cbn [snd world db] in Hconv, Hdb.
    split; [|exact Hdb].
    apply (converts_cons _ _ _ w); assumption.
Qed.

Lemma converts_length (documents : list Document) (w w' : World)
    (status_checks : list StatusCheck.t) :
  converts documents w status_checks w' -> length status_checks = length documents.
Proof.
  induction 1; cbn [length]; congruence.
Qed.

(** X21. A listing of the status checks that returns asked the database
    for at most 1000 documents and holds, in the order of the documents it
    got, what [StatusCheck] makes of each of them: no document is left
    out, none is taken twice, and the database is left as the query left
    it. *)
Theorem get_status_checks_keeps_all (st : StatusState)
    (status_checks : list StatusCheck.t) :
  fst (get_status_checks st) = Return status_checks ->
  exists database documents,
    db st = Some database
    /\ fst (find_to_list database 1000) = Return documents
    /\ converts documents (world st) status_checks (world (snd (get_status_checks st)))
    /\ length status_checks = length documents
    /\ db (snd (get_status_checks st)) = Some (snd (find_to_list database 1000)).
Proof.
  unfold get_status_checks, bindS, _ensure_db, db_find_to_list.
  destruct (db st) as [database|]; [|discriminate].
  destruct (find_to_list database 1000) as [[documents|e] database'] eqn:Hfind;
    [|discriminate].
  intros Hlist. exists database, documents.
  split; [reflexivity|]. rewrite Hfind. split; [reflexivity|].
  destruct (status_checks_of_converts documents _ _ Hlist) as [Hconv Hdb].
  cbn [world] in Hconv. cbn [db] in Hdb.
  split; [exact Hconv|]. split; [exact (converts_length _ _ _ _ Hconv) | exact Hdb].
Qed.

End StatusFacts.

Section LifespanFacts.
Context `{AgentImpl} `{StoreImpl}.

(** X22. Start-up stops when [MONGO_URL] or [DB_NAME] is not set or is
    empty: it raises a [RuntimeError] whose text lists the variables that
    are missing, those and no other, [MONGO_URL] before [DB_NAME], before
    a client is made; the application does not run and nothing is there
    to close. *)
Theorem lifespan_missing_variables (getenv : string -> option string)
    (serve : Started -> outcome unit) :
  unset (getenv "MONGO_URL") = true \/ unset (getenv "DB_NAME") = true ->
  lifespan getenv serve
  = (Raise (Exc (OtherException "RuntimeError")
              (if unset (getenv "MONGO_URL") then
                 if unset (getenv "DB_NAME")
                 then "Missing required environment variables: MONGO_URL, DB_NAME"
                 else "Missing required environment variables: MONGO_URL"
               else "Missing required environment variables: DB_NAME")),
     false).
Proof.
  intros Hunset. unfold lifespan, missing_variables.
  destruct (unset (getenv "MONGO_URL")), (unset (getenv "DB_NAME"));
    try reflexivity.
  destruct Hunset; discriminate.
Qed.

(** X23. With both variables set: when the Mongo client cannot be made,
    its exception leaves start-up and the application does not run; once
    the client is made it is closed however the run ends, and the
    application runs on the database of the name given and on the state
    [lifespan_state] (configuration set, cache empty), which is [ready]. *)
Theorem lifespan_runs_and_closes (getenv : string -> option string)
    (serve : Started -> outcome unit) (url name : string) :
  getenv "MONGO_URL" = Some url -> url <> "" ->
  getenv "DB_NAME" = Some name -> name <> "" ->
  match AsyncIOMotorClient url with
  | Raise e => lifespan getenv serve = (Raise e, false)
  | Return client =>
      snd (lifespan getenv serve) = true
      /\ match get_database client name with
         | Raise e => fst (lifespan getenv serve) = Raise e
         | Return database =>
             fst (lifespan getenv serve)
             = serve {| mongo_client := client;
                        started_db := database;
                        started_agents := lifespan_state |}
         end
      /\ ready lifespan_state
  end.
Proof.
  intros Hurl Hurl_set Hname Hname_set.
  unfold lifespan. rewrite Hurl, Hname. unfold unset.
  apply String.eqb_neq in Hurl_set, Hname_set. rewrite Hurl_set, Hname_set.
  cbn [orb].
  destruct (AsyncIOMotorClient url) as [client|e]; [|reflexivity].
  split; [reflexivity|]. split.
  - destruct (get_database client name); reflexivity.
  - split; [eexists; reflexivity|].
    split; [apply lifespan_state_recognized | apply lifespan_state_in_heap].
Qed.

End LifespanFacts.

(** ** The further properties at concrete inputs *)

Section RegistryMoreExamples.
#[local] Existing Instance hello_agents.

Lemma missing_cache_is_empty_cache_witness :
  _get_or_create_agent (H := hello_agents) "chat" no_cache_state
  = _get_or_create_agent "chat" (set_agent_cache ∅ no_cache_state).
Proof.
  apply (missing_cache_is_empty_cache (H := hello_agents) "chat" no_cache_state).
  reflexivity.
Defined.

Lemma missing_config_is_a_fault_witness :
  fst (_get_or_create_agent (H := hello_agents) "bogus" no_config_state)
  = Raise (Exc AttributeError "'State' object has no attribute 'agent_config'")
  /\ fst (chat_with_agent (H := hello_agents) bogus_request no_config_state)
     = Return {| ChatResponse.success := false;
                 ChatResponse.response := "";
                 ChatResponse.agent_type := "bogus";
                 ChatResponse.capabilities := [];
                 ChatResponse.metadata := [];
                 ChatResponse.error :=
                   Some "'State' object has no attribute 'agent_config'" |}.
Proof.
  destruct (missing_config_is_a_fault (H := hello_agents) bogus_request no_config_state)
    as (Hraise & _ & _ & Hchat); [reflexivity..|].
  split; [exact Hraise | exact Hchat].
Defined.

End RegistryMoreExamples.

Section BrokenSearchExamples.
#[local] Existing Instance broken_search_agents.

Lemma constructor_failure_not_cached_witness :
  fst (_get_or_create_agent (H := broken_search_agents) "search" lifespan_state) = Raise boom
  /\ cache_of (snd (_get_or_create_agent (H := broken_search_agents) "search"
                      lifespan_state))
     = cache_of lifespan_state.
Proof.
  edestruct (constructor_failure_not_cached (H := broken_search_agents) "search"
               lifespan_state) as (Hraise & Hcache & _);
    [right; reflexivity | reflexivity..|].
  split; [exact Hraise | exact Hcache].
Defined.

End BrokenSearchExamples.

Section HandlerMoreExamples.
#[local] Existing Instance hello_agents.

Lemma cached_agent_never_replaced_witness :
  let st := snd (chat_with_agent hi_request lifespan_state) in
  cache_of st !! "chat" = Some 0%nat
  /\ cache_of (snd (search_and_summarize (pendle_search 5) st)) !! "chat" = Some 0%nat.
Proof.
  intros st.
  assert (Hkey : cache_of st !! "chat" = Some 0%nat) by reflexivity.
  destruct (cached_agent_never_replaced "chat" 0%nat st hi_request (pendle_search 5) Hkey)
    as (_ & Hsearch & _).
  split; [exact Hkey | exact Hsearch].
Defined.

Lemma at_most_two_agents_witness :
  (length (heap (snd (search_and_summarize (pendle_search 5)
                        (snd (chat_with_agent hi_request lifespan_state))))) <= 2)%nat.
Proof.
  apply (at_most_two_agents
           (snd (search_and_summarize (pendle_search 5)
                   (snd (chat_with_agent hi_request lifespan_state))))).
  apply reachable_search, reachable_chat, reachable_start.
Defined.

Lemma chat_unknown_type_refused_witness :
  fst (chat_with_agent bogus_request lifespan_state)
  = Raise (HTTPException 400 "Unknown agent type 'bogus'")
  /\ executed (snd (chat_with_agent bogus_request lifespan_state)) = [].
Proof.
  edestruct (chat_unknown_type_refused bogus_request lifespan_state)
    as (Hraise & Hexec & _);
    [discriminate | discriminate | reflexivity | apply lifespan_state_recognized |].
  split; [exact Hraise | exact Hexec].
Defined.

Lemma capabilities_warm_the_cache_witness :
  exists search_agent chat_agent,
    cache_of (snd (get_agent_capabilities lifespan_state)) !! "search" = Some search_agent
    /\ cache_of (snd (get_agent_capabilities lifespan_state)) !! "chat" = Some chat_agent.
Proof.
  edestruct (capabilities_warm_the_cache lifespan_state)
    as (search_agent & chat_agent & Hs & Hc & _); [reflexivity..|].
  exists search_agent, chat_agent. split; [exact Hs | exact Hc].
Defined.

End HandlerMoreExamples.

Section CapabilitiesExamples.

Lemma capabilities_search_failure_witness :
  fst (get_agent_capabilities (H := broken_search_agents) lifespan_state)
  = Return (VDict [ ("success", VBool false); ("error", VStr "boom") ])
  /\ constructed (snd (get_agent_capabilities (H := broken_search_agents) lifespan_state))
     = [("search", default_config)].
Proof.
  edestruct (capabilities_search_failure (H := broken_search_agents) lifespan_state)
    as (Hanswer & Hctor & _); [reflexivity..|].
  split; [exact Hanswer | exact Hctor].
Defined.

Lemma sources_count_zero_witness :
  fst (search_and_summarize (H := null_count_agents) (pendle_search 5) lifespan_state)
  = Return {| SearchResponse.success := true;
              SearchResponse.query := "pendle";
              SearchResponse.summary := "summary";
              SearchResponse.search_results :=
                Some [("tool_run_count", VNone); ("tools_used", VInt 7)];
              SearchResponse.sources_count := 0;
              SearchResponse.error := None |}.
Proof.
  eapply (sources_count_zero (H := null_count_agents) (pendle_search 5) lifespan_state
            _ 0%nat _ _
            (found_result [("tool_run_count", VNone); ("tools_used", VInt 7)]));
    [reflexivity..|].
  left. exists VNone. split; reflexivity.
Defined.

End CapabilitiesExamples.

Section VaultMoreExamples.

Lemma vaults_success_only_if_witness :
  exists markets,
    Forall (skippable 1) markets
    /\ [good_vault 1] = survivors 1 markets.
Proof.
  edestruct (vaults_success_only_if
               (provider_ok (markets_payload [good_market; bad_liquidity_market])) 1)
    as (response & payload & markets & _ & _ & _ & _ & Hall & Hvaults & _);
    [reflexivity..|].
  exists markets. split; [exact Hall | exact Hvaults].
Defined.

Lemma vaults_no_markets_witness :
  get_pendle_vaults (provider_ok (VDict [("results", VList [good_market])])) 1
  = Return {| VaultsResponse.success := true;
              VaultsResponse.vaults := [];
              VaultsResponse.total := 0;
              VaultsResponse.error := None |}.
Proof.
  eapply (vaults_no_markets (provider_ok (VDict [("results", VList [good_market])])) 1);
    [reflexivity..|].
  left. reflexivity.
Defined.

Lemma vaults_malformed_payload_witness :
  get_pendle_vaults (provider_ok (VList [good_market])) 1
  = Return (vaults_failure "'list' object has no attribute 'get'").
Proof.
  exact (vaults_malformed_payload (provider_ok (VList [good_market])) 1
           _ (VList [good_market]) eq_refl eq_refl eq_refl).
Defined.

Lemma text_fields_read_witness :
  get null_market_name "name" (VStr "Unknown") = Return (VStr "Unknown").
Proof.
  pose proof (text_fields_read 1 null_market_name _ eq_refl) as Hfields.
  unfold text_fields in Hfields.
  apply Forall_cons in Hfields as [_ Hfields].
  apply Forall_cons in Hfields as [Hname _].
  exact Hname.
Defined.

Lemma vault_details_transport_failure_witness :
  get_vault_details (provider_status 404 "Client error '404 Not Found'") "0xA" 1
  = Raise (HTTPException 500
             "Failed to fetch vault details: Client error '404 Not Found'").
Proof.
  apply (vault_details_transport_failure
           (provider_status 404 "Client error '404 Not Found'") "0xA" 1
           (Exc (HttpxError HTTPStatusError) "Client error '404 Not Found'")).
  reflexivity.
Defined.

(** The request to the provider is cancelled: the [CancelledError] goes
    through both vault handlers. *)
Example vaults_cancelled :
  get_pendle_vaults provider_cancelled 1 = Raise cancelled
  /\ get_vault_details provider_cancelled "0xA" 1 = Raise cancelled.
Proof. split; reflexivity. Qed.

End VaultMoreExamples.

Section StatusExamples.
#[local] Existing Instance hello_agents.
#[local] Existing Instance memory_store.

Lemma status_db_not_ready_witness :
  create_status_check probe not_ready_state
  = (Raise (HTTPException 503 "Database not ready"), not_ready_state).
Proof.
  apply (status_db_not_ready probe not_ready_state). reflexivity.
Defined.

Lemma create_status_check_stores_what_it_returns_witness :
  fst (create_status_check probe empty_store_state) = Return probe_check
  /\ db (snd (create_status_check probe empty_store_state)) = Some [probe_check].
Proof.
  pose proof (create_status_check_stores_what_it_returns probe empty_store_state []
                eq_refl) as Hstored.
  assert (Hobj : fst (create_status_check probe empty_store_state) = Return probe_check)
    by reflexivity.
  rewrite Hobj in Hstored. destruct Hstored as (_ & _ & Hdb).
  split; [exact Hobj | exact Hdb].
Defined.

Lemma get_status_checks_keeps_all_witness :
  fst (get_status_checks two_checks_state) = Return [probe_check; second_check]
  /\ exists documents,
       fst (find_to_list (StoreImpl := memory_store) [probe_check; second_check] 1000)
       = Return documents
       /\ converts documents 4 [probe_check; second_check] 4.
Proof.
  split; [reflexivity|].
  edestruct (get_status_checks_keeps_all two_checks_state [probe_check; second_check])
    as (database & documents & Hdb & Hfind & Hconv & _); [reflexivity|].
  injection Hdb as <-. exists documents. split; [exact Hfind | exact Hconv].
Defined.

Lemma lifespan_missing_variables_witness :
  lifespan (env_of None (Some "")) (fun _ => Return tt)
  = (Raise (Exc (OtherException "RuntimeError")
              "Missing required environment variables: MONGO_URL, DB_NAME"),
     false).
Proof.
  apply (lifespan_missing_variables (env_of None (Some "")) (fun _ => Return tt)).
  left. reflexivity.
Defined.

Lemma lifespan_runs_and_closes_witness :
  snd (lifespan (env_of (Some "mongodb://localhost") (Some "app"))
         (fun _ => Raise boom)) = true.
Proof.
  pose proof (lifespan_runs_and_closes
                (env_of (Some "mongodb://localhost") (Some "app"))
                (fun _ => Raise boom) "mongodb://localhost" "app"
                eq_refl ltac:(discriminate) eq_refl ltac:(discriminate)) as Hrun.
  cbn [AsyncIOMotorClient memory_store] in Hrun. apply Hrun.
Defined.

End StatusExamples.
